(** * Circular buffers (robmasocco/circular-buffers_c)

    A shallow embedding of [CircularBuffer.c] / [CircularBuffer.h] and the
    properties of the FIFO it implements.

    Conventions of the embedding:
    - a [void *] value is an integer ([Z]); [NULL] is [0];
    - a [ulong] is a 64-bit unsigned integer: arithmetic the source does on
      [ulong] values is wrapped with [ulong];
    - the heap area [_dataPtr] points to is the list of its cells; the
      pointers [_readPtr] and [_writePtr] are kept as their distance (in
      cells) from [_dataPtr];
    - a [CircBuffer *] argument is an [option CircBuffer] ([None] is the
      null pointer) and every function returns the structure it leaves
      behind, since the source updates it in place;
    - a [void **] block argument is an [option (list Z)]. *)

From stdpp Require Import base numbers list.

Open Scope Z_scope.

(** ** Machine values *)

Abbreviation ptr := Z.

Definition NULL : ptr := 0.

Definition ULONG_RANGE : Z := 2 ^ 64.

(** Conversion of an integer result to [ulong] (wrap-around). *)
Definition ulong (x : Z) : Z := x `mod` ULONG_RANGE.

Definition is_ulong (x : Z) : Prop := 0 ≤ x < ULONG_RANGE.

(** ** Memory cells

    Offsets and lengths are counted in cells of [sizeof(void * )] bytes.
    Accesses outside of the list are undefined behaviour in C; here a load
    out of range yields [NULL] and a store out of range does nothing. *)

Definition load (area : list ptr) (off : Z) : ptr :=
  default NULL (area !! Z.to_nat off).

Definition store (area : list ptr) (off : Z) (v : ptr) : list ptr :=
  <[Z.to_nat off := v]> area.

(** [memcpy (dst + doff) (src + soff) (n * sizeof(void * ))]. *)
Definition memcpy (dst : list ptr) (doff : Z) (src : list ptr) (soff n : Z)
  : list ptr :=
  list_inserts (Z.to_nat doff) (take (Z.to_nat n) (drop (Z.to_nat soff) src)) dst.

(** [memset (dst + off) 0 (n * sizeof(void * ))]: the cells become [NULL]. *)
Definition memset0 (dst : list ptr) (off n : Z) : list ptr :=
  list_inserts (Z.to_nat off) (replicate (Z.to_nat n) NULL) dst.

(** ** The structure *)

Record CircBuffer : Type := mkCircBuffer {
  _dataPtr : list ptr;   (* cells of the data area *)
  cbSize : Z;
  _readPtr : Z;          (* _readPtr - _dataPtr *)
  _writePtr : Z;         (* _writePtr - _dataPtr *)
  dataCount : Z
}.

(** [calloc n (sizeof(void * ))]: a zeroed area, or a failure. *)
Definition calloc (n : Z) (succeeds : bool) : option (list ptr) :=
  if succeeds then Some (replicate (Z.to_nat n) NULL) else None.

(** Creates a new Circular Buffer of the specified size.  The two booleans
    tell whether the two [calloc] calls succeed. *)
Definition createCBuffer (size : Z) (buffer_ok area_ok : bool)
  : option CircBuffer :=
  if size =? 0 then None
  else if negb buffer_ok then None
  else match calloc size area_ok with
       | None => None
       | Some dataArea =>
           Some {| _dataPtr := dataArea; cbSize := size;
                   _readPtr := 0; _writePtr := 0; dataCount := 0 |}
       end.

(** What [free] is called on. *)
Inductive block : Type :=
  | Entry (p : ptr)
  | DataArea
  | Structure.

(** [free p] on an entry: nothing happens for [NULL]. *)
Definition free_entry (p : ptr) (released : list block) : list block :=
  if p =? NULL then released else released ++ [Entry p].

(** Deletes a Circular Buffer; the result is the sequence of blocks handed
    back to the allocator. *)
Definition deleteCBuffer (cBuff : option CircBuffer) (toFree : Z) : list block :=
  match cBuff with
  | None => []
  | Some b =>
      let released :=
        if toFree =? 0 then []
        else foldl (fun rel i => free_entry (load (_dataPtr b) i) rel) []
                   (seqZ 0 (cbSize b)) in
      released ++ [DataArea; Structure]
  end.

(** Advance a cursor by one cell and wrap it around. *)
Definition wrap_ptr (b : CircBuffer) (p : Z) : Z :=
  if p =? cbSize b then 0 else p.

(** Reads an entry from the given buffer. Also makes such entry unavailable.
    Returns the entry or NULL. *)
Definition cbRead (cBuff : option CircBuffer) : ptr * option CircBuffer :=
  match cBuff with
  | None => (NULL, None)
  | Some b =>
      if dataCount b =? 0 then (NULL, Some b)
      else
        let newData := load (_dataPtr b) (_readPtr b) in
        (newData,
         Some {| _dataPtr := store (_dataPtr b) (_readPtr b) NULL;
                 cbSize := cbSize b;
                 _readPtr := wrap_ptr b (_readPtr b + 1);
                 _writePtr := _writePtr b;
                 dataCount := ulong (dataCount b - 1) |})
  end.

(** Writes an entry in the given buffer.
    Returns 1 on success, 0 if the buffer was full. *)
Definition cbWrite (cBuff : option CircBuffer) (data : ptr)
  : Z * option CircBuffer :=
  match cBuff with
  | None => (0, None)
  | Some b =>
      if data =? NULL then (0, Some b)
      else if dataCount b =? cbSize b then (0, Some b)
      else
        (1,
         Some {| _dataPtr := store (_dataPtr b) (_writePtr b) data;
                 cbSize := cbSize b;
                 _readPtr := _readPtr b;
                 _writePtr := wrap_ptr b (_writePtr b + 1);
                 dataCount := ulong (dataCount b + 1) |})
  end.

(** Number of operations a bulk call performs, once its checks passed. *)
Definition bulk_ops (available bufSize upTo : Z) : Z :=
  if upTo =? 0 then bufSize
  else if available >=? bufSize then bufSize else available.

(** The transfer of [ops] entries out of the buffer (the second half of
    [cbCopy]): one [memcpy]/[memset] pair, or two when the entries wrap
    around the end of the data area. *)
Definition copy_cells (b : CircBuffer) (out : list ptr) (ops : Z)
  : list ptr * CircBuffer :=
  let '(out', area', rp') :=
    if ulong (cbSize b - _readPtr b) <? ops then
      let toEnd := ulong (cbSize b - _readPtr b) in
      let out1 := memcpy out 0 (_dataPtr b) (_readPtr b) toEnd in
      let area1 := memset0 (_dataPtr b) (_readPtr b) toEnd in
      let out2 := memcpy out1 toEnd area1 0 (ulong (ops - toEnd)) in
      let area2 := memset0 area1 0 (ulong (ops - toEnd)) in
      (out2, area2, 0 + ulong (ops - toEnd))
    else
      let out1 := memcpy out 0 (_dataPtr b) (_readPtr b) ops in
      let area1 := memset0 (_dataPtr b) (_readPtr b) ops in
      (out1, area1, wrap_ptr b (_readPtr b + ops)) in
  (out',
   {| _dataPtr := area'; cbSize := cbSize b;
      _readPtr := rp'; _writePtr := _writePtr b;
      dataCount := ulong (dataCount b - ops) |}).

(** Reads a portion of the buffer, placing it in the provided area.
    Can be instructed to only perform the operation if there's that amount
    of data to read if "upTo=0".
    Returns the number of read operations performed, with the block and the
    buffer as the call leaves them. *)
Definition cbCopy (cBuff : option CircBuffer) (dataBuf : option (list ptr))
    (bufSize upTo : Z) : Z * option (list ptr) * option CircBuffer :=
  match dataBuf, cBuff with
  | Some out, Some b =>
      if bufSize =? 0 then (0, dataBuf, cBuff)
      else if (upTo =? 0) && (bufSize >? cbSize b) then (0, dataBuf, cBuff)
      else if (dataCount b =? 0) || ((upTo =? 0) && (dataCount b <? bufSize))
      then (0, dataBuf, cBuff)
      else
        let ops := bulk_ops (dataCount b) bufSize upTo in
        let '(out', b') := copy_cells b out ops in
        (ops, Some out', Some b')
  | _, _ => (0, dataBuf, cBuff)
  end.

(** The transfer of [ops] entries into the buffer (the second half of
    [cbPaste]). *)
Definition paste_cells (b : CircBuffer) (inp : list ptr) (ops : Z)
  : CircBuffer :=
  let '(area', wp') :=
    if ulong (cbSize b - _writePtr b) <? ops then
      let toEnd := ulong (cbSize b - _writePtr b) in
      let area1 := memcpy (_dataPtr b) (_writePtr b) inp 0 toEnd in
      let area2 := memcpy area1 0 inp toEnd (ulong (ops - toEnd)) in
      (area2, 0 + ulong (ops - toEnd))
    else
      let area1 := memcpy (_dataPtr b) (_writePtr b) inp 0 ops in
      (area1, wrap_ptr b (_writePtr b + ops)) in
  {| _dataPtr := area'; cbSize := cbSize b;
     _readPtr := _readPtr b; _writePtr := wp';
     dataCount := ulong (dataCount b + ops) |}.

(** Writes a block of data into the buffer.
    Can be instructed to only write to the buffer if there's enough room for
    all the data or up to the given amount if "upTo=1".
    Returns the number of write operations performed, with the buffer as
    the call leaves it. *)
Definition cbPaste (cBuff : option CircBuffer) (dataBuf : option (list ptr))
    (bufSize upTo : Z) : Z * option CircBuffer :=
  match dataBuf, cBuff with
  | Some inp, Some b =>
      if bufSize =? 0 then (0, cBuff)
      else if (upTo =? 0) && (bufSize >? cbSize b) then (0, cBuff)
      else
        let freeCells := ulong (cbSize b - dataCount b) in
        if (freeCells =? 0) || ((upTo =? 0) && (freeCells <? bufSize))
        then (0, cBuff)
        else
          let ops := bulk_ops freeCells bufSize upTo in
          (ops, Some (paste_cells b inp ops))
  | _, _ => (0, cBuff)
  end.

(** The checks of [cbCopy] and [cbPaste] on a non-null buffer and a non-null
    block: [true] when the call is refused. *)
Definition copy_refused (b : CircBuffer) (bufSize upTo : Z) : bool :=
  (bufSize =? 0)
  || ((upTo =? 0) && (bufSize >? cbSize b))
  || ((dataCount b =? 0) || ((upTo =? 0) && (dataCount b <? bufSize))).

Definition paste_refused (b : CircBuffer) (bufSize upTo : Z) : bool :=
  (bufSize =? 0)
  || ((upTo =? 0) && (bufSize >? cbSize b))
  || ((ulong (cbSize b - dataCount b) =? 0)
      || ((upTo =? 0) && (ulong (cbSize b - dataCount b) <? bufSize))).

(** ** The storage seen from the read cursor

    [ring r l] lists the cells of [l] starting at index [r] and wrapping
    around the end of [l]. *)

Definition ring {A} (r : nat) (l : list A) : list A := drop r l ++ take r l.

(** All the cells, the oldest entry first. *)
Definition cells (b : CircBuffer) : list ptr :=
  ring (Z.to_nat (_readPtr b)) (_dataPtr b).

(** The [dataCount] cells that hold the entries not read yet, and the others. *)
Definition live (b : CircBuffer) : list ptr :=
  take (Z.to_nat (dataCount b)) (cells b).

Definition vacant (b : CircBuffer) : list ptr :=
  drop (Z.to_nat (dataCount b)) (cells b).

(** ** Well-formed structures

    What [createCBuffer] establishes about the fields and every function
    keeps: the shape of the structure, without a word on what the cells
    hold. *)

Record wf (b : CircBuffer) : Prop := mk_wf {
  wf_size : 0 < cbSize b < ULONG_RANGE;
  wf_area : Z.of_nat (length (_dataPtr b)) = cbSize b;
  wf_read : 0 ≤ _readPtr b < cbSize b;
  wf_write : 0 ≤ _writePtr b < cbSize b;
  wf_count : 0 ≤ dataCount b ≤ cbSize b;
  wf_cursors : _writePtr b = (_readPtr b + dataCount b) `mod` cbSize b
}.

(** What the cells hold: entries in the live cells, [NULL] in the others. *)
Definition live_nonnull (b : CircBuffer) : Prop := Forall (λ p, p ≠ NULL) (live b).

Definition vacant_null (b : CircBuffer) : Prop := Forall (λ p, p = NULL) (vacant b).

(** Number of cells of the data area that hold an entry. *)
Definition occupied (b : CircBuffer) : Z :=
  Z.of_nat (length (filter (λ p, p ≠ NULL) (_dataPtr b))).

(** ** Sequences of calls *)

(** [n] successive [cbRead] calls and what they return. *)
Fixpoint cbRead_n (n : nat) (cBuff : option CircBuffer)
  : list ptr * option CircBuffer :=
  match n with
  | O => ([], cBuff)
  | S n =>
      let '(x, cBuff1) := cbRead cBuff in
      let '(xs, cBuff2) := cbRead_n n cBuff1 in
      (x :: xs, cBuff2)
  end.

(** One [cbWrite] call per element of [es], in order, and the flags. *)
Fixpoint cbWrite_all (es : list ptr) (cBuff : option CircBuffer)
  : list Z * option CircBuffer :=
  match es with
  | [] => ([], cBuff)
  | e :: es =>
      let '(f, cBuff1) := cbWrite cBuff e in
      let '(fs, cBuff2) := cbWrite_all es cBuff1 in
      (f :: fs, cBuff2)
  end.

(** Interleaved single-element calls and their answers. *)
Inductive call : Type :=
  | Write (e : ptr)
  | Read.

Inductive answer : Type :=
  | Flag (f : Z)
  | Element (p : ptr).

Definition perform (c : call) (cBuff : option CircBuffer)
  : answer * option CircBuffer :=
  match c with
  | Write e => let '(f, cBuff1) := cbWrite cBuff e in (Flag f, cBuff1)
  | Read => let '(p, cBuff1) := cbRead cBuff in (Element p, cBuff1)
  end.

Fixpoint run (cs : list call) (cBuff : option CircBuffer)
  : list answer * option CircBuffer :=
  match cs with
  | [] => ([], cBuff)
  | c :: cs =>
      let '(a, cBuff1) := perform c cBuff in
      let '(az, cBuff2) := run cs cBuff1 in
      (a :: az, cBuff2)
  end.

(** ** The queue of the specification

    The FIFO the specification describes (sections 3 and 4.2): a bounded
    sequence of elements in arrival order.  [enqueue] fails on the empty
    sentinel and on a full queue, [dequeue] removes the oldest element or
    answers "no element". *)

Module Fifo.
Record t : Type := mk { capacity : Z; elements : list ptr }.

Definition empty (c : Z) : t := {| capacity := c; elements := [] |}.

Definition count (q : t) : Z := Z.of_nat (length (elements q)).

Definition enqueue (q : t) (e : ptr) : Z * t :=
  if e =? NULL then (0, q)
  else if count q =? capacity q then (0, q)
  else (1, {| capacity := capacity q; elements := elements q ++ [e] |}).

Definition dequeue (q : t) : ptr * t :=
  match elements q with
  | [] => (NULL, q)
  | x :: rest => (x, {| capacity := capacity q; elements := rest |})
  end.

Definition perform (c : call) (q : t) : answer * t :=
  match c with
  | Write e => let '(f, q1) := enqueue q e in (Flag f, q1)
  | Read => let '(p, q1) := dequeue q in (Element p, q1)
  end.

Fixpoint run (cs : list call) (q : t) : list answer * t :=
  match cs with
  | [] => ([], q)
  | c :: cs =>
      let '(a, q1) := perform c q in
      let '(az, q2) := run cs q1 in
      (a :: az, q2)
  end.
End Fifo.

(** The buffer [b] holds the queue [q]. *)
Definition holds (b : CircBuffer) (q : Fifo.t) : Prop :=
  wf b ∧ cbSize b = Fifo.capacity q ∧ live b = Fifo.elements q.

(** ** Reachable structures

    A caller hands [cbCopy] and [cbPaste] either a null block or a block of
    at least [bufSize] cells. *)

Definition block_ok (dataBuf : option (list ptr)) (bufSize : Z) : Prop :=
  match dataBuf with
  | None => True
  | Some blk => bufSize ≤ Z.of_nat (length blk)
  end.

(** The entries a [cbPaste] call may take from its block. *)
Definition pasted (dataBuf : option (list ptr)) (bufSize : Z) : list ptr :=
  match dataBuf with
  | None => []
  | Some blk => take (Z.to_nat bufSize) blk
  end.

(** The structures obtained from [createCBuffer size] through the four
    operations, the entries handed to [cbPaste] being taken among those
    that satisfy [P]. *)
Inductive reach_by (P : ptr → Prop) (size : Z) : CircBuffer → Prop :=
  | reach_create b :
      is_ulong size →
      createCBuffer size true true = Some b →
      reach_by P size b
  | reach_read b p b' :
      reach_by P size b →
      cbRead (Some b) = (p, Some b') →
      reach_by P size b'
  | reach_write b e f b' :
      reach_by P size b →
      cbWrite (Some b) e = (f, Some b') →
      reach_by P size b'
  | reach_copy b dataBuf bufSize upTo n dataBuf' b' :
      reach_by P size b →
      is_ulong bufSize → block_ok dataBuf bufSize →
      cbCopy (Some b) dataBuf bufSize upTo = (n, dataBuf', Some b') →
      reach_by P size b'
  | reach_paste b dataBuf bufSize upTo n b' :
      reach_by P size b →
      is_ulong bufSize → block_ok dataBuf bufSize →
      Forall P (pasted dataBuf bufSize) →
      cbPaste (Some b) dataBuf bufSize upTo = (n, Some b') →
      reach_by P size b'.

(** Reachable from a buffer created with the given capacity. *)
Definition reachable : Z → CircBuffer → Prop := reach_by (λ _, True).

(** Reachable when [cbPaste] is handed non-null entries only. *)
Definition reachable_nonnull : Z → CircBuffer → Prop :=
  reach_by (λ p, p ≠ NULL).

(** ** Sample structures *)

(** [createCBuffer 4], [cbWrite] of 7, 8 and 9, two [cbRead] calls and
    [cbWrite] of 1: two entries, the write cursor wrapped around. *)
Definition sample_buffer : CircBuffer :=
  {| _dataPtr := [0; 0; 9; 1]; cbSize := 4;
     _readPtr := 2; _writePtr := 0; dataCount := 2 |}.

(** [createCBuffer 2] followed by [cbPaste] of the block [[NULL; 5]] in
    strict mode: a null entry counted as live. *)
Definition null_pasted_buffer : CircBuffer :=
  {| _dataPtr := [0; 5]; cbSize := 2;
     _readPtr := 0; _writePtr := 0; dataCount := 2 |}.

(** * Properties *)

#[global] Arguments cbRead : simpl never.
#[global] Arguments cbWrite : simpl never.
#[global] Arguments cbCopy : simpl never.
#[global] Arguments cbPaste : simpl never.

(** ** The operations at work *)

Example create_zero : createCBuffer 0 true true = None.
Proof. reflexivity. Qed.

Example create_without_memory :
  createCBuffer 4 false true = None ∧ createCBuffer 4 true false = None.
Proof. split; reflexivity. Qed.

(** Capacity 1: one element in, the same element out, empty again. *)
Example create_one :
  run [Write 7; Write 8; Read; Read] (createCBuffer 1 true true)
  = ([Flag 1; Flag 0; Element 7; Element NULL],
     Some {| _dataPtr := [0]; cbSize := 1;
             _readPtr := 0; _writePtr := 0; dataCount := 0 |}).
Proof. reflexivity. Qed.

(** Capacity 4: four writes, two reads, two writes that wrap the write
    cursor, four reads. *)
Example wraparound :
  (run [Write 1; Write 2; Write 3; Write 4; Read; Read; Write 5; Write 6;
        Read; Read; Read; Read] (createCBuffer 4 true true)).1
  = [Flag 1; Flag 1; Flag 1; Flag 1; Element 1; Element 2; Flag 1; Flag 1;
     Element 3; Element 4; Element 5; Element 6].
Proof. reflexivity. Qed.

(** A transfer split in two at the end of the data area. *)
Example split_copy :
  cbCopy (cbPaste (Some sample_buffer) (Some [5; 6]) 2 0).2
         (Some [0; 0; 0; 0; 0]) 10 1
  = (4, Some [9; 1; 5; 6; 0],
     Some {| _dataPtr := [0; 0; 0; 0]; cbSize := 4;
             _readPtr := 2; _writePtr := 2; dataCount := 0 |}).
Proof. reflexivity. Qed.

(** Strict mode: three entries do not fit into two free cells. *)
Example strict_paste_refused :
  cbPaste (Some sample_buffer) (Some [5; 6; 7]) 3 0
  = (0, Some sample_buffer).
Proof. reflexivity. Qed.

Example delete_sample :
  deleteCBuffer (Some sample_buffer) 1
  = [Entry 9; Entry 1; DataArea; Structure].
Proof. reflexivity. Qed.

(** ** Lists read in ring order *)

Section ring_lists.
Context {A : Type}.
Implicit Types l k : list A.

Lemma length_ring r l : length (ring r l) = length l.
Proof. unfold ring. rewrite length_app, length_drop, length_take. lia. Qed.

Lemma ring_0 l : ring 0 l = l.
Proof. unfold ring. simpl. by rewrite app_nil_r. Qed.

Lemma ring_inj r l1 l2 :
  length l1 = length l2 → ring r l1 = ring r l2 → l1 = l2.
Proof.
  unfold ring. intros Hlen Heq.
  apply app_inj_1 in Heq as [Hd Ht].
  - rewrite <-(take_drop r l1), <-(take_drop r l2). congruence.
  - rewrite !length_drop. lia.
Qed.

Lemma ring_insert_hi r w x l :
  (r ≤ w < length l)%nat → ring r (<[w:=x]> l) = <[(w - r)%nat:=x]> (ring r l).
Proof.
  intros ?. unfold ring.
  rewrite drop_insert_ge, take_insert_ge by lia.
  rewrite insert_app_l; [done|]. rewrite length_drop. lia.
Qed.

Lemma ring_insert_lo r w x l :
  (w < r ≤ length l)%nat →
  ring r (<[w:=x]> l) = <[(length l - r + w)%nat:=x]> (ring r l).
Proof.
  intros ?. unfold ring.
  rewrite drop_insert_lt, take_insert_lt by lia.
  replace (length l - r + w)%nat with (length (drop r l) + w)%nat
    by (rewrite length_drop; lia).
  by rewrite insert_app_r.
Qed.

Lemma ring_inserts_hi r w k l :
  (r ≤ w)%nat → (w + length k ≤ length l)%nat →
  ring r (list_inserts w k l) = list_inserts (w - r) k (ring r l).
Proof.
  revert w. induction k as [|y k IH]; intros w Hr Hk; simpl in *; [done|].
  rewrite ring_insert_hi by (rewrite length_inserts; lia).
  rewrite IH by lia. do 2 f_equal. lia.
Qed.

Lemma ring_inserts_lo r w k l :
  (w + length k ≤ r ≤ length l)%nat →
  ring r (list_inserts w k l) = list_inserts (length l - r + w) k (ring r l).
Proof.
  revert w. induction k as [|y k IH]; intros w Hk; simpl in *; [done|].
  rewrite ring_insert_lo by (rewrite length_inserts; lia).
  rewrite IH by lia. rewrite length_inserts. do 2 f_equal. lia.
Qed.

Lemma ring_ring r n l :
  (r + n ≤ length l)%nat → ring (r + n) l = ring n (ring r l).
Proof.
  intros ?. unfold ring.
  rewrite drop_app_le, take_app_le by (rewrite length_drop; lia).
  rewrite drop_drop, <-app_assoc. by rewrite take_take_drop.
Qed.

Lemma ring_ring_wrap r n l :
  (r ≤ length l)%nat → (n ≤ length l)%nat → (length l ≤ r + n)%nat →
  ring (r + n - length l) l = ring n (ring r l).
Proof.
  intros ???. unfold ring.
  rewrite drop_app_ge, take_app_ge by (rewrite length_drop; lia).
  rewrite length_drop, take_take.
  replace (n - (length l - r))%nat with (r + n - length l)%nat by lia.
  rewrite Nat.min_l by lia.
  rewrite (app_assoc _ (drop r l)).
  by rewrite drop_take_drop by lia.
Qed.

Lemma list_inserts_0 k l :
  (length k ≤ length l)%nat → list_inserts 0 k l = k ++ drop (length k) l.
Proof.
  intros ?. rewrite <-(take_drop (length k) l) at 1.
  apply list_inserts_0_r. rewrite length_take. lia.
Qed.

Lemma list_inserts_splice i k l :
  (i + length k ≤ length l)%nat →
  list_inserts i k l = take i l ++ k ++ drop (i + length k) l.
Proof.
  intros ?. rewrite <-(take_drop i l) at 1.
  replace i with (length (take i l) + 0)%nat at 1
    by (rewrite length_take; lia).
  rewrite list_inserts_app_r, list_inserts_0 by (rewrite length_drop; lia).
  by rewrite drop_drop.
Qed.
End ring_lists.

(** ** Arithmetic of the fields *)

(** Closes the range conditions of [ulong_small]. *)
Ltac in_ulong := unfold is_ulong; lia.

Lemma ulong_small x : is_ulong x → ulong x = x.
Proof. unfold is_ulong, ulong. intros ?. by apply Z.mod_small. Qed.

Lemma mod_cases c r k w :
  0 < c → 0 ≤ r < c → 0 ≤ k ≤ c → 0 ≤ w < c →
  w = (r + k) `mod` c ↔
  (r + k < c ∧ w = r + k) ∨ (c ≤ r + k ∧ w = r + k - c).
Proof.
  intros Hc Hr Hk Hw.
  destruct (decide (r + k < c)) as [Hlt|Hge].
  - rewrite Z.mod_small by lia. lia.
  - replace (r + k) with ((r + k - c) + 1 * c) by lia.
    rewrite Z.mod_add, Z.mod_small by lia. lia.
Qed.

Lemma wf_cursors_cases b :
  wf b →
  (_readPtr b + dataCount b < cbSize b ∧
     _writePtr b = _readPtr b + dataCount b) ∨
  (cbSize b ≤ _readPtr b + dataCount b ∧
     _writePtr b = _readPtr b + dataCount b - cbSize b).
Proof.
  intros [? ? ? ? ? Hw]. apply mod_cases; [lia..|done].
Qed.

Lemma length_cells b : length (cells b) = length (_dataPtr b).
Proof. apply length_ring. Qed.

(** A well-formed structure is determined by its size, its count, one of
    its cursors and its cells taken from the read cursor. *)
Lemma wf_ext_write b1 b2 :
  wf b1 → wf b2 →
  cbSize b1 = cbSize b2 → dataCount b1 = dataCount b2 →
  _writePtr b1 = _writePtr b2 → cells b1 = cells b2 →
  b1 = b2.
Proof.
  intros W1 W2 Hs Hc Hw Hcells.
  pose proof (wf_cursors_cases _ W1). pose proof (wf_cursors_cases _ W2).
  destruct W1, W2.
  assert (_readPtr b1 = _readPtr b2) as Hr by lia.
  unfold cells in Hcells. rewrite Hr in Hcells.
  apply ring_inj in Hcells; [|lia].
  destruct b1, b2; simpl in *; congruence.
Qed.

Lemma wf_ext_read b1 b2 :
  wf b1 → wf b2 →
  cbSize b1 = cbSize b2 → dataCount b1 = dataCount b2 →
  _readPtr b1 = _readPtr b2 → cells b1 = cells b2 →
  b1 = b2.
Proof.
  intros W1 W2 Hs Hc Hr Hcells.
  apply wf_ext_write; try done.
  rewrite (wf_cursors _ W1), (wf_cursors _ W2). congruence.
Qed.

(** ** The two bulk transfers, seen from the read cursor *)

Lemma take_inserts_le {A} (n i : nat) (k l : list A) :
  (n ≤ i)%nat → take n (list_inserts i k l) = take n l.
Proof.
  revert i. induction k as [|y k IH]; intros i ?; simpl; [done|].
  rewrite take_insert_ge by lia. apply IH. lia.
Qed.

(** Clearing the [n] oldest cells and moving the read cursor past them. *)
Lemma ring_consume {A} (x : A) (n : nat) (R : list A) :
  (n ≤ length R)%nat →
  ring n (list_inserts 0 (replicate n x) R) = drop n R ++ replicate n x.
Proof.
  intros ?. rewrite list_inserts_0 by (rewrite length_replicate; lia).
  rewrite length_replicate. unfold ring.
  rewrite drop_app_length', take_app_length' by (by rewrite length_replicate).
  done.
Qed.

Lemma ring_advance {A} (r n r' : nat) (l : list A) :
  (r ≤ length l)%nat → (n ≤ length l)%nat →
  ((r + n < length l)%nat ∧ r' = (r + n)%nat) ∨
  ((length l ≤ r + n)%nat ∧ r' = (r + n - length l)%nat) →
  ring r' l = ring n (ring r l).
Proof.
  intros ?? [[? ->]|[? ->]].
  - apply ring_ring. lia.
  - by apply ring_ring_wrap.
Qed.

(** The cells cleared by the two [memset] calls of a wrapped transfer. *)
Lemma ring_inserts_wrapped {A} (r : nat) (k1 k2 l : list A) :
  (r + length k1)%nat = length l → (length k2 ≤ r)%nat →
  ring r (list_inserts 0 k2 (list_inserts r k1 l))
  = list_inserts 0 (k1 ++ k2) (ring r l).
Proof.
  intros Hk1 Hk2.
  rewrite ring_inserts_lo by (rewrite length_inserts; lia).
  rewrite ring_inserts_hi by lia.
  rewrite length_inserts, list_inserts_app_l.
  f_equal; [lia|]. f_equal. lia.
Qed.

(** What the [memcpy] calls of [cbCopy] leave in the block. *)
Lemma copied_once {A} (r n : nat) (l out : list A) :
  (r + n ≤ length l)%nat → (n ≤ length out)%nat →
  list_inserts 0 (take n (drop r l)) out = take n (ring r l) ++ drop n out.
Proof.
  intros ??. unfold ring.
  rewrite take_app_le by (rewrite length_drop; lia).
  rewrite list_inserts_0; rewrite length_take, length_drop; [|lia].
  do 2 f_equal. lia.
Qed.

Lemma copied_twice {A} (x : A) (r t m : nat) (l out : list A) :
  (r + t)%nat = length l → (m ≤ r)%nat → (t + m ≤ length out)%nat →
  list_inserts t (take m (drop 0 (list_inserts r (replicate t x) l)))
    (list_inserts 0 (take t (drop r l)) out)
  = take (t + m) (ring r l) ++ drop (t + m) out.
Proof.
  intros Hl Hm Hout. rewrite drop_0.
  rewrite take_inserts_le by done.
  rewrite (take_ge (drop r l)) by (rewrite length_drop; lia).
  assert (length (drop r l) = t) as Ht by (rewrite length_drop; lia).
  replace t with (length (drop r l) + 0)%nat at 1 by lia.
  rewrite <-list_inserts_app_l.
  rewrite list_inserts_0; rewrite length_app, length_take, Ht; [|lia].
  unfold ring. rewrite take_app_add' by done.
  rewrite take_take. do 3 f_equal; lia.
Qed.

Lemma copy_cells_spec b out n :
  wf b → 0 ≤ n ≤ dataCount b → n ≤ Z.of_nat (length out) →
  ∃ b',
    copy_cells b out n
      = (take (Z.to_nat n) (cells b) ++ drop (Z.to_nat n) out, b') ∧
    wf b' ∧ cbSize b' = cbSize b ∧ _writePtr b' = _writePtr b ∧
    dataCount b' = dataCount b - n ∧
    cells b' = drop (Z.to_nat n) (cells b) ++ replicate (Z.to_nat n) NULL.
Proof.
  intros W Hn Hout. pose proof (wf_cursors_cases _ W) as Hcur.
  destruct W as [Hsz Hlen Hr Hw Hc Hmod].
  unfold copy_cells, cells, memcpy, memset0, wrap_ptr.
  change (Z.to_nat 0) with 0%nat.
  rewrite (ulong_small (cbSize b - _readPtr b)) by in_ulong.
  rewrite (ulong_small (dataCount b - n)) by in_ulong.
  destruct (Z.ltb_spec (cbSize b - _readPtr b) n) as [Hsplit|Hone].
  - rewrite (ulong_small (n - _)) by in_ulong.
    assert (Z.to_nat n = Z.to_nat (cbSize b - _readPtr b)
                         + Z.to_nat (n - (cbSize b - _readPtr b)))%nat
      as HN by lia.
    eexists. split; [f_equal|split; [|repeat split]]; simpl.
    + rewrite HN. apply copied_twice; lia.
    + constructor; simpl; rewrite ?length_inserts; try lia.
      apply mod_cases; lia.
    + rewrite (ring_advance (Z.to_nat (_readPtr b)) (Z.to_nat n))
        by (rewrite ?length_inserts; lia).
      rewrite ring_inserts_wrapped by (rewrite ?length_replicate; lia).
      rewrite <-replicate_add, <-HN.
      apply ring_consume. rewrite length_ring. lia.
  - eexists. split; [f_equal|split; [|repeat split]]; simpl.
    + apply copied_once; lia.
    + constructor; simpl; rewrite ?length_inserts; try lia.
      * case_match; lia.
      * apply mod_cases; try case_match; lia.
    + rewrite (ring_advance (Z.to_nat (_readPtr b)) (Z.to_nat n))
        by (rewrite ?length_inserts; try case_match; lia).
      rewrite ring_inserts_hi by (rewrite ?length_replicate; lia).
      rewrite Nat.sub_diag.
      apply ring_consume. rewrite length_ring. lia.
Qed.

(** What the two [memcpy] calls of a wrapped [cbPaste] leave in the cells. *)
Lemma pasted_twice {A} (r w t m : nat) (inp l : list A) :
  (r ≤ w)%nat → (w + t)%nat = length l → (m ≤ r)%nat →
  (t + m ≤ length inp)%nat →
  ring r (list_inserts 0 (take m (drop t inp))
            (list_inserts w (take t (drop 0 inp)) l))
  = list_inserts (w - r) (take (t + m) inp) (ring r l).
Proof.
  intros Hr Hl Hm Hinp. rewrite drop_0.
  assert (length (take t inp) = t) as Ht by (rewrite length_take; lia).
  assert (length (take m (drop t inp)) = m) as Hm'
    by (rewrite length_take, length_drop; lia).
  rewrite ring_inserts_lo by (rewrite length_inserts; lia).
  rewrite ring_inserts_hi by lia.
  rewrite length_inserts, <-take_take_drop, list_inserts_app_l, Ht.
  f_equal. lia.
Qed.

Lemma paste_cells_spec b inp n :
  wf b → 0 ≤ n ≤ cbSize b - dataCount b → n ≤ Z.of_nat (length inp) →
  wf (paste_cells b inp n) ∧
  cbSize (paste_cells b inp n) = cbSize b ∧
  _readPtr (paste_cells b inp n) = _readPtr b ∧
  dataCount (paste_cells b inp n) = dataCount b + n ∧
  cells (paste_cells b inp n)
  = list_inserts (Z.to_nat (dataCount b)) (take (Z.to_nat n) inp) (cells b).
Proof.
  intros W Hn Hinp. pose proof (wf_cursors_cases _ W) as Hcur.
  destruct W as [Hsz Hlen Hr Hw Hc Hmod].
  unfold paste_cells, cells, memcpy, wrap_ptr.
  change (Z.to_nat 0) with 0%nat.
  rewrite (ulong_small (cbSize b - _writePtr b)) by in_ulong.
  rewrite (ulong_small (dataCount b + n)) by in_ulong.
  destruct (Z.ltb_spec (cbSize b - _writePtr b) n) as [Hsplit|Hone].
  - rewrite (ulong_small (n - _)) by in_ulong.
    assert (Z.to_nat n = Z.to_nat (cbSize b - _writePtr b)
                         + Z.to_nat (n - (cbSize b - _writePtr b)))%nat
      as HN by lia.
    split; [|repeat split]; simpl.
    + constructor; simpl; rewrite ?length_inserts; try lia.
      apply mod_cases; lia.
    + rewrite HN, pasted_twice by lia. f_equal. lia.
  - split; [|repeat split]; simpl.
    + constructor; simpl; rewrite ?length_inserts; try lia.
      * case_match; lia.
      * apply mod_cases; try case_match; lia.
    + rewrite drop_0.
      assert (length (take (Z.to_nat n) inp) = Z.to_nat n) as Hk
        by (rewrite length_take; lia).
      destruct Hcur as [[? ?]|[? ?]].
      * rewrite ring_inserts_hi by lia. f_equal. lia.
      * rewrite ring_inserts_lo by lia. f_equal. lia.
Qed.

(** ** The four operations on a well-formed structure *)

Lemma cbCopy_unfold b out bufSize upTo :
  cbCopy (Some b) (Some out) bufSize upTo =
  if copy_refused b bufSize upTo then (0, Some out, Some b)
  else (bulk_ops (dataCount b) bufSize upTo,
        Some (copy_cells b out (bulk_ops (dataCount b) bufSize upTo)).1,
        Some (copy_cells b out (bulk_ops (dataCount b) bufSize upTo)).2).
Proof.
  unfold cbCopy, copy_refused.
  destruct (bufSize =? 0); [done|].
  destruct ((upTo =? 0) && (bufSize >? cbSize b)); [done|].
  destruct ((dataCount b =? 0) || _); [done|]. simpl.
  by destruct (copy_cells _ _ _).
Qed.

Lemma cbPaste_unfold b inp bufSize upTo :
  cbPaste (Some b) (Some inp) bufSize upTo =
  if paste_refused b bufSize upTo then (0, Some b)
  else (bulk_ops (ulong (cbSize b - dataCount b)) bufSize upTo,
        Some (paste_cells b inp
                (bulk_ops (ulong (cbSize b - dataCount b)) bufSize upTo))).
Proof.
  unfold cbPaste, paste_refused.
  destruct (bufSize =? 0); [done|].
  destruct ((upTo =? 0) && (bufSize >? cbSize b)); [done|].
  by destruct ((ulong _ =? 0) || _).
Qed.

(** A call that is not refused moves at least one entry and no more than
    are asked for and available. *)
Lemma copy_accepted b bufSize upTo :
  wf b → is_ulong bufSize → copy_refused b bufSize upTo = false →
  0 < bulk_ops (dataCount b) bufSize upTo ≤ dataCount b ∧
  bulk_ops (dataCount b) bufSize upTo ≤ bufSize.
Proof.
  intros [] [] Href. unfold copy_refused, bulk_ops in *.
  destruct (Z.eqb_spec upTo 0); simpl in Href;
    repeat (apply orb_false_elim in Href as [Href ?]); simpl in *;
    [|destruct (Z.geb_spec (dataCount b) bufSize)]; lia.
Qed.

Lemma paste_accepted b bufSize upTo :
  wf b → is_ulong bufSize → paste_refused b bufSize upTo = false →
  0 < bulk_ops (ulong (cbSize b - dataCount b)) bufSize upTo
    ≤ cbSize b - dataCount b ∧
  bulk_ops (ulong (cbSize b - dataCount b)) bufSize upTo ≤ bufSize.
Proof.
  intros [] []. unfold paste_refused, bulk_ops.
  rewrite ulong_small by in_ulong. intros Href.
  destruct (Z.eqb_spec upTo 0); simpl in Href;
    repeat (apply orb_false_elim in Href as [Href ?]); simpl in *;
    [|destruct (Z.geb_spec (cbSize b - dataCount b) bufSize)]; lia.
Qed.

Lemma cells_head b :
  wf b → cells b !! 0%nat = Some (load (_dataPtr b) (_readPtr b)).
Proof.
  intros []. unfold cells, ring, load.
  rewrite lookup_app_l by (rewrite length_drop; lia).
  rewrite lookup_drop, Nat.add_0_r.
  destruct (lookup_lt_is_Some_2 (_dataPtr b) (Z.to_nat (_readPtr b)))
    as [x ->]; [lia|done].
Qed.

(** A successful [cbRead] is the transfer of one entry. *)
Lemma cbRead_copy_cells b out :
  wf b → dataCount b ≠ 0 →
  cbRead (Some b)
  = (load (_dataPtr b) (_readPtr b), Some (copy_cells b out 1).2) ∧
  _readPtr (copy_cells b out 1).2 = wrap_ptr b (_readPtr b + 1).
Proof.
  intros [] Hc. unfold cbRead, copy_cells.
  destruct (Z.eqb_spec (dataCount b) 0); [done|].
  rewrite (ulong_small (cbSize b - _)) by in_ulong.
  by destruct (Z.ltb_spec (cbSize b - _readPtr b) 1); [lia|].
Qed.

Lemma cbRead_spec b :
  wf b → dataCount b ≠ 0 →
  ∃ x R b',
    cells b = x :: R ∧
    cbRead (Some b) = (x, Some b') ∧
    wf b' ∧ cbSize b' = cbSize b ∧ _writePtr b' = _writePtr b ∧
    dataCount b' = dataCount b - 1 ∧
    _readPtr b' = wrap_ptr b (_readPtr b + 1) ∧
    cells b' = R ++ [NULL].
Proof.
  intros W Hc.
  pose proof (cells_head _ W) as Hhd.
  destruct (cbRead_copy_cells b [NULL] W Hc) as [Hrd Hptr].
  destruct (copy_cells_spec b [NULL] 1 W) as (b' & Hcp & W' & ? & ? & ? & Hcells);
    [destruct W; lia|simpl; lia|].
  rewrite Hcp in Hrd, Hptr.
  destruct (cells b) as [|x R] eqn:HR; [done|].
  simpl in Hhd, Hcells. simplify_eq.
  by exists (load (_dataPtr b) (_readPtr b)), R, b'.
Qed.

(** A successful [cbWrite] is the transfer of one entry. *)
Lemma cbWrite_paste_cells b e :
  wf b → e ≠ NULL → dataCount b ≠ cbSize b →
  cbWrite (Some b) e = (1, Some (paste_cells b [e] 1)) ∧
  _writePtr (paste_cells b [e] 1) = wrap_ptr b (_writePtr b + 1).
Proof.
  intros [] He Hc. unfold cbWrite, paste_cells.
  destruct (Z.eqb_spec e NULL); [done|].
  destruct (Z.eqb_spec (dataCount b) (cbSize b)); [done|].
  rewrite (ulong_small (cbSize b - _)) by in_ulong.
  by destruct (Z.ltb_spec (cbSize b - _writePtr b) 1); [lia|].
Qed.

Lemma cbWrite_spec b e :
  wf b → e ≠ NULL → dataCount b ≠ cbSize b →
  ∃ b',
    cbWrite (Some b) e = (1, Some b') ∧
    wf b' ∧ cbSize b' = cbSize b ∧ _readPtr b' = _readPtr b ∧
    dataCount b' = dataCount b + 1 ∧
    _writePtr b' = wrap_ptr b (_writePtr b + 1) ∧
    cells b' = <[Z.to_nat (dataCount b) := e]> (cells b).
Proof.
  intros W He Hc.
  destruct (cbWrite_paste_cells b e W He Hc) as [Hwr Hptr].
  destruct (paste_cells_spec b [e] 1 W) as (W' & ? & ? & ? & Hcells);
    [destruct W; lia|simpl; lia|].
  by exists (paste_cells b [e] 1).
Qed.

(** ** Live and vacant cells across a transfer *)

Section transfers.
Context {A : Type}.
Implicit Types R k : list A.

Lemma take_consumed (K N : nat) R x :
  (N ≤ K ≤ length R)%nat →
  take (K - N) (drop N R ++ replicate N x) = drop N (take K R).
Proof.
  intros ?. rewrite take_app_le by (rewrite length_drop; lia).
  rewrite take_drop_commute. do 2 f_equal. lia.
Qed.

Lemma drop_consumed (K N : nat) R x :
  (N ≤ K ≤ length R)%nat →
  drop (K - N) (drop N R ++ replicate N x) = drop K R ++ replicate N x.
Proof.
  intros ?. rewrite drop_app_le by (rewrite length_drop; lia).
  rewrite drop_drop. do 2 f_equal. lia.
Qed.

Lemma take_filled (K : nat) k R :
  (K + length k ≤ length R)%nat →
  take (K + length k) (list_inserts K k R) = take K R ++ k.
Proof.
  intros ?. rewrite list_inserts_splice by done.
  assert (length (take K R) = K) as HK by (rewrite length_take; lia).
  rewrite <-HK at 1. rewrite take_app_add' by done.
  by rewrite take_app_length.
Qed.

Lemma drop_filled (K : nat) k R :
  (K + length k ≤ length R)%nat →
  drop (K + length k) (list_inserts K k R) = drop (length k) (drop K R).
Proof.
  intros ?. rewrite list_inserts_splice by done.
  assert (length (take K R) = K) as HK by (rewrite length_take; lia).
  rewrite <-HK at 1. rewrite drop_app_add' by done.
  by rewrite drop_app_length, drop_drop.
Qed.
End transfers.

Lemma length_live b :
  wf b → length (live b) = Z.to_nat (dataCount b).
Proof.
  intros []. unfold live. rewrite length_take, length_cells. lia.
Qed.

Lemma live_vacant b : cells b = live b ++ vacant b.
Proof. unfold live, vacant. by rewrite take_drop. Qed.

Lemma live_nil b : wf b → live b = [] ↔ dataCount b = 0.
Proof.
  intros W. pose proof (length_live _ W) as Hlen. destruct W.
  split; intros H0.
  - rewrite H0 in Hlen. simpl in Hlen. lia.
  - apply nil_length_inv. lia.
Qed.

(** What a transfer out of the buffer does to the live and vacant cells. *)
Lemma consumed_live b b' n :
  wf b → 0 ≤ n ≤ dataCount b →
  dataCount b' = dataCount b - n →
  cells b' = drop (Z.to_nat n) (cells b) ++ replicate (Z.to_nat n) NULL →
  live b' = drop (Z.to_nat n) (live b) ∧
  vacant b' = vacant b ++ replicate (Z.to_nat n) NULL.
Proof.
  intros [] Hn Hc Hcells. unfold live, vacant. rewrite Hcells, Hc.
  replace (Z.to_nat (dataCount b - n))
    with (Z.to_nat (dataCount b) - Z.to_nat n)%nat by lia.
  split.
  - apply take_consumed. rewrite length_cells. lia.
  - apply drop_consumed. rewrite length_cells. lia.
Qed.

(** What a transfer into the buffer does to them. *)
Lemma filled_live b b' k :
  wf b → Z.of_nat (length k) ≤ cbSize b - dataCount b →
  dataCount b' = dataCount b + Z.of_nat (length k) →
  cells b' = list_inserts (Z.to_nat (dataCount b)) k (cells b) →
  live b' = live b ++ k ∧ vacant b' = drop (length k) (vacant b).
Proof.
  intros [] Hk Hc Hcells. unfold live, vacant. rewrite Hcells, Hc.
  replace (Z.to_nat (dataCount b + Z.of_nat (length k)))
    with (Z.to_nat (dataCount b) + length k)%nat by lia.
  split.
  - apply take_filled. rewrite length_cells. lia.
  - apply drop_filled. rewrite length_cells. lia.
Qed.

(** ** Every call, on a well-formed structure *)

Lemma cbRead_inv b p b' :
  wf b → cbRead (Some b) = (p, Some b') →
  (dataCount b = 0 ∧ p = NULL ∧ b' = b) ∨
  (dataCount b ≠ 0 ∧ wf b' ∧
   cbSize b' = cbSize b ∧ _writePtr b' = _writePtr b ∧
   dataCount b' = dataCount b - 1 ∧
   _readPtr b' = wrap_ptr b (_readPtr b + 1) ∧
   live b = p :: live b' ∧ vacant b' = vacant b ++ [NULL]).
Proof.
  intros W Hrd. destruct (decide (dataCount b = 0)) as [H0|H0].
  - left. unfold cbRead in Hrd. rewrite H0 in Hrd. by simplify_eq/=.
  - right. destruct (cbRead_spec b W H0)
      as (x & R & b1 & HR & Hrd' & W1 & ? & ? & Hc & ? & Hcells).
    rewrite Hrd' in Hrd. simplify_eq.
    destruct (consumed_live b b' 1 W) as [Hl Hv];
      [destruct W; lia|done|by rewrite HR|].
    split_and!; try done.
    rewrite Hl. unfold live. rewrite HR.
    destruct W. by replace (Z.to_nat (dataCount b))
      with (S (Z.to_nat (dataCount b - 1))) by lia.
Qed.

Lemma cbWrite_inv b e f b' :
  wf b → cbWrite (Some b) e = (f, Some b') →
  (f = 0 ∧ b' = b ∧ (e = NULL ∨ dataCount b = cbSize b)) ∨
  (f = 1 ∧ e ≠ NULL ∧ dataCount b ≠ cbSize b ∧ wf b' ∧
   cbSize b' = cbSize b ∧ _readPtr b' = _readPtr b ∧
   dataCount b' = dataCount b + 1 ∧
   _writePtr b' = wrap_ptr b (_writePtr b + 1) ∧
   live b' = live b ++ [e] ∧ vacant b' = drop 1 (vacant b)).
Proof.
  intros W Hwr.
  destruct (decide (e = NULL)) as [He|He].
  { left. unfold cbWrite in Hwr. rewrite He in Hwr. simplify_eq/=. auto. }
  destruct (decide (dataCount b = cbSize b)) as [Hc|Hc].
  { left. unfold cbWrite in Hwr. destruct (Z.eqb_spec e NULL); [done|].
    rewrite Hc, Z.eqb_refl in Hwr. simplify_eq. auto. }
  right. destruct (cbWrite_spec b e W He Hc)
    as (b1 & Hwr' & W1 & ? & ? & ? & ? & Hcells).
  rewrite Hwr' in Hwr. simplify_eq.
  destruct (filled_live b b' [e] W) as [Hl Hv];
    [destruct W; simpl; lia|simpl; lia|done|].
  by split_and!.
Qed.

Lemma cbCopy_inv b out bufSize upTo n dataBuf' b' :
  wf b → is_ulong bufSize → bufSize ≤ Z.of_nat (length out) →
  cbCopy (Some b) (Some out) bufSize upTo = (n, dataBuf', Some b') →
  (copy_refused b bufSize upTo = true ∧
   n = 0 ∧ dataBuf' = Some out ∧ b' = b) ∨
  (copy_refused b bufSize upTo = false ∧
   n = bulk_ops (dataCount b) bufSize upTo ∧
   0 < n ≤ dataCount b ∧ n ≤ bufSize ∧
   dataBuf' = Some (take (Z.to_nat n) (live b) ++ drop (Z.to_nat n) out) ∧
   wf b' ∧ cbSize b' = cbSize b ∧ _writePtr b' = _writePtr b ∧
   dataCount b' = dataCount b - n ∧
   cells b' = drop (Z.to_nat n) (cells b) ++ replicate (Z.to_nat n) NULL ∧
   live b' = drop (Z.to_nat n) (live b) ∧
   vacant b' = vacant b ++ replicate (Z.to_nat n) NULL).
Proof.
  intros W Hsz Hout. rewrite cbCopy_unfold.
  destruct (copy_refused b bufSize upTo) eqn:Href; intros Hcp.
  { left. by simplify_eq. }
  right. destruct (copy_accepted b bufSize upTo W Hsz Href) as [Hops ?].
  destruct (copy_cells_spec b out (bulk_ops (dataCount b) bufSize upTo) W)
    as (b1 & Heq & W1 & ? & ? & ? & Hcells); [lia..|].
  rewrite Heq in Hcp. simplify_eq/=.
  destruct (consumed_live b b' (bulk_ops (dataCount b) bufSize upTo) W)
    as [Hl Hv]; [lia|done..|].
  split_and!; try done; try lia.
  do 2 f_equal. unfold live. rewrite take_take. f_equal. lia.
Qed.

Lemma cbPaste_inv b inp bufSize upTo n b' :
  wf b → is_ulong bufSize → bufSize ≤ Z.of_nat (length inp) →
  cbPaste (Some b) (Some inp) bufSize upTo = (n, Some b') →
  (paste_refused b bufSize upTo = true ∧ n = 0 ∧ b' = b) ∨
  (paste_refused b bufSize upTo = false ∧
   n = bulk_ops (ulong (cbSize b - dataCount b)) bufSize upTo ∧
   0 < n ≤ cbSize b - dataCount b ∧ n ≤ bufSize ∧
   wf b' ∧ cbSize b' = cbSize b ∧ _readPtr b' = _readPtr b ∧
   dataCount b' = dataCount b + n ∧
   cells b'
   = list_inserts (Z.to_nat (dataCount b)) (take (Z.to_nat n) inp) (cells b) ∧
   live b' = live b ++ take (Z.to_nat n) inp ∧
   vacant b' = drop (Z.to_nat n) (vacant b)).
Proof.
  intros W Hsz Hinp. rewrite cbPaste_unfold.
  destruct (paste_refused b bufSize upTo) eqn:Href; intros Hps.
  { left. by simplify_eq. }
  right. destruct (paste_accepted b bufSize upTo W Hsz Href) as [Hops ?].
  destruct (paste_cells_spec b inp
              (bulk_ops (ulong (cbSize b - dataCount b)) bufSize upTo) W)
    as (W1 & ? & ? & ? & Hcells); [lia..|].
  simplify_eq/=.
  set (n := bulk_ops _ _ _) in *.
  assert (length (take (Z.to_nat n) inp) = Z.to_nat n) as Hk
    by (rewrite length_take; lia).
  destruct (filled_live b (paste_cells b inp n) (take (Z.to_nat n) inp) W)
    as [Hl Hv]; [lia|lia|done|].
  rewrite Hk in Hv. split_and!; try done; lia.
Qed.

(** ** What holds of every reachable structure *)

Lemma createCBuffer_spec size b :
  is_ulong size → createCBuffer size true true = Some b →
  size ≠ 0 ∧
  b = {| _dataPtr := replicate (Z.to_nat size) NULL; cbSize := size;
         _readPtr := 0; _writePtr := 0; dataCount := 0 |} ∧
  wf b ∧ live b = [] ∧ vacant b = replicate (Z.to_nat size) NULL.
Proof.
  intros [? ?] Hcr. unfold createCBuffer in Hcr.
  destruct (Z.eqb_spec size 0); [done|]. simpl in Hcr. simplify_eq.
  split_and!; try done.
  - constructor; simpl; rewrite ?length_replicate; try lia.
    by rewrite Z.mod_0_l by lia.
  - unfold vacant, cells. simpl. by rewrite ring_0.
Qed.

Lemma createCBuffer_Some size :
  size ≠ 0 → is_Some (createCBuffer size true true).
Proof.
  intros ?. unfold createCBuffer. by destruct (Z.eqb_spec size 0).
Qed.

Lemma reach_by_inv P c b :
  reach_by P c b →
  wf b ∧ cbSize b = c ∧ vacant_null b ∧
  Forall (λ p, p ≠ NULL ∨ P p) (live b).
Proof.
  unfold vacant_null.
  induction 1 as
    [b Hsz Hcr
    |b p b' _ (W & HS & Hv & Hl) Hrd
    |b e f b' _ (W & HS & Hv & Hl) Hwr
    |b [out|] bufSize upTo n dataBuf' b' _ (W & HS & Hv & Hl) Hsz Hblk Hcp
    |b [inp|] bufSize upTo n b' _ (W & HS & Hv & Hl) Hsz Hblk HP Hps].
  - destruct (createCBuffer_spec _ _ Hsz Hcr) as (_ & Hb & W & -> & ->).
    split_and!; [done|by subst b| |done]. by apply Forall_replicate.
  - destruct (cbRead_inv _ _ _ W Hrd)
      as [(_ & _ & ->)|(_ & W' & HS' & _ & _ & _ & Hl' & Hv')]; [done|].
    rewrite Hl' in Hl. rewrite Hv'. apply Forall_cons in Hl as [_ Hl].
    split_and!; [done|congruence| |done].
    apply Forall_app. by repeat constructor.
  - destruct (cbWrite_inv _ _ _ _ W Hwr)
      as [(_ & -> & _)|(_ & He & _ & W' & HS' & _ & _ & _ & Hl' & Hv')];
      [done|].
    rewrite Hl', Hv'. split_and!; [done|congruence|by apply Forall_drop|].
    apply Forall_app. split; [done|]. apply Forall_singleton. by left.
  - destruct (cbCopy_inv _ _ _ _ _ _ _ W Hsz Hblk Hcp)
      as [(_ & _ & _ & ->)
         |(_ & _ & _ & _ & _ & W' & HS' & _ & _ & _ & Hl' & Hv')]; [done|].
    rewrite Hl', Hv'. split_and!; [done|congruence| |by apply Forall_drop].
    apply Forall_app. split; [done|]. by apply Forall_replicate.
  - unfold cbCopy in Hcp. by simplify_eq.
  - destruct (cbPaste_inv _ _ _ _ _ _ W Hsz Hblk Hps)
      as [(_ & _ & ->)
         |(_ & _ & _ & Hn & W' & HS' & _ & _ & _ & Hl' & Hv')]; [done|].
    rewrite Hl', Hv'. split_and!; [done|congruence|by apply Forall_drop|].
    apply Forall_app. split; [done|].
    simpl in HP.
    replace (take (Z.to_nat n) inp)
      with (take (Z.to_nat n) (take (Z.to_nat bufSize) inp))
      by (rewrite take_take; f_equal; lia).
    apply Forall_take. eapply Forall_impl; [exact HP|]. by right.
  - unfold cbPaste in Hps. by simplify_eq.
Qed.

Lemma reachable_wf c b : reachable c b → wf b.
Proof. intros H. by apply reach_by_inv in H as (? & _). Qed.

Lemma reachable_size c b : reachable c b → cbSize b = c.
Proof. intros H. by apply reach_by_inv in H as (_ & ? & _). Qed.

Lemma reachable_vacant_null c b : reachable c b → vacant_null b.
Proof. intros H. by apply reach_by_inv in H as (_ & _ & ? & _). Qed.

Lemma reachable_nonnull_live c b : reachable_nonnull c b → live_nonnull b.
Proof.
  intros H. apply reach_by_inv in H as (_ & _ & _ & Hl).
  eapply Forall_impl; [exact Hl|]. by intros p [?|?].
Qed.

Lemma reach_by_mono (P Q : ptr → Prop) c b :
  (∀ p, P p → Q p) → reach_by P c b → reach_by Q c b.
Proof.
  intros HPQ. induction 1.
  - by eapply reach_create.
  - by eapply reach_read.
  - by eapply reach_write.
  - by eapply reach_copy.
  - eapply reach_paste; [done..| |done]. by eapply Forall_impl.
Qed.

Lemma reachable_nonnull_reachable c b :
  reachable_nonnull c b → reachable c b.
Proof. by apply reach_by_mono. Qed.

(** ** Successive single-element calls *)

Lemma cbRead_n_S n cBuff :
  cbRead_n (S n) cBuff =
  let '(x, cBuff1) := cbRead cBuff in
  let '(xs, cBuff2) := cbRead_n n cBuff1 in (x :: xs, cBuff2).
Proof. reflexivity. Qed.

Lemma cbWrite_all_cons e es cBuff :
  cbWrite_all (e :: es) cBuff =
  let '(f, cBuff1) := cbWrite cBuff e in
  let '(fs, cBuff2) := cbWrite_all es cBuff1 in (f :: fs, cBuff2).
Proof. reflexivity. Qed.

Lemma cbRead_n_spec n b :
  wf b → Z.of_nat n ≤ dataCount b →
  ∃ b',
    cbRead_n n (Some b) = (take n (cells b), Some b') ∧
    wf b' ∧ cbSize b' = cbSize b ∧ _writePtr b' = _writePtr b ∧
    dataCount b' = dataCount b - Z.of_nat n ∧
    cells b' = drop n (cells b) ++ replicate n NULL.
Proof.
  revert b. induction n as [|n IH]; intros b W Hn.
  - exists b. simpl. rewrite drop_0, app_nil_r. split_and!; try done. lia.
  - destruct (cbRead_spec b W)
      as (x & R & b1 & HR & Hrd & W1 & Hs1 & Hw1 & Hc1 & _ & Hcells1); [lia|].
    destruct (IH b1 W1) as (b2 & Hrn & W2 & Hs2 & Hw2 & Hc2 & Hcells2); [lia|].
    assert (n ≤ length R)%nat as HnR.
    { pose proof (length_cells b) as Hlen. rewrite HR in Hlen.
      destruct W. simpl in Hlen. lia. }
    exists b2. rewrite cbRead_n_S, Hrd, Hrn, Hcells2, Hcells1, HR. simpl.
    rewrite take_app_le, drop_app_le by done.
    split_and!; try done; try congruence; try lia.
    by rewrite <-app_assoc.
Qed.

Lemma cbWrite_all_spec es b :
  wf b → Forall (λ p, p ≠ NULL) es →
  Z.of_nat (length es) ≤ cbSize b - dataCount b →
  ∃ b',
    cbWrite_all es (Some b) = (replicate (length es) 1, Some b') ∧
    wf b' ∧ cbSize b' = cbSize b ∧ _readPtr b' = _readPtr b ∧
    dataCount b' = dataCount b + Z.of_nat (length es) ∧
    cells b' = list_inserts (Z.to_nat (dataCount b)) es (cells b).
Proof.
  revert b. induction es as [|e es IH]; intros b W Hes Hlen.
  - exists b. simpl. split_and!; try done. lia.
  - apply Forall_cons in Hes as [He Hes]. simpl in Hlen.
    destruct (cbWrite_spec b e W He)
      as (b1 & Hwr & W1 & Hs1 & Hr1 & Hc1 & _ & Hcells1); [lia|].
    destruct (IH b1 W1 Hes) as (b2 & Hwa & W2 & Hs2 & Hr2 & Hc2 & Hcells2);
      [lia|].
    exists b2. rewrite cbWrite_all_cons, Hwr, Hwa, Hcells2, Hcells1, Hc1.
    simpl.
    split_and!; try done; try congruence; try lia.
    rewrite list_insert_inserts_lt by (destruct W; lia).
    do 2 f_equal. destruct W. lia.
Qed.

(** [copy_cells] does what as many [cbRead] calls do. *)
Lemma copy_cells_as_reads b out n :
  wf b → 0 ≤ n ≤ dataCount b → n ≤ Z.of_nat (length out) →
  cbRead_n (Z.to_nat n) (Some b)
  = (take (Z.to_nat n) (copy_cells b out n).1, Some (copy_cells b out n).2).
Proof.
  intros W Hn Hout.
  destruct (copy_cells_spec b out n W Hn Hout)
    as (b1 & -> & W1 & Hs1 & Hw1 & Hc1 & Hcells1).
  destruct (cbRead_n_spec (Z.to_nat n) b W)
    as (b2 & -> & W2 & Hs2 & Hw2 & Hc2 & Hcells2); [lia|]. simpl.
  f_equal.
  - rewrite take_app_length'; [done|].
    rewrite length_take, length_cells. destruct W. lia.
  - f_equal. apply wf_ext_write; try done; try congruence. lia.
Qed.

(** [paste_cells] does what as many [cbWrite] calls do, the entries being
    non-null. *)
Lemma paste_cells_as_writes b inp n :
  wf b → 0 ≤ n ≤ cbSize b - dataCount b → n ≤ Z.of_nat (length inp) →
  Forall (λ p, p ≠ NULL) (take (Z.to_nat n) inp) →
  cbWrite_all (take (Z.to_nat n) inp) (Some b)
  = (replicate (Z.to_nat n) 1, Some (paste_cells b inp n)).
Proof.
  intros W Hn Hinp Hnn.
  assert (length (take (Z.to_nat n) inp) = Z.to_nat n) as Hk
    by (rewrite length_take; lia).
  destruct (paste_cells_spec b inp n W Hn Hinp)
    as (W1 & Hs1 & Hr1 & Hc1 & Hcells1).
  destruct (cbWrite_all_spec _ b W Hnn)
    as (b2 & -> & W2 & Hs2 & Hr2 & Hc2 & Hcells2); [lia|].
  rewrite Hk. do 2 f_equal.
  apply wf_ext_read; try done; try congruence. lia.
Qed.

(** ** The buffer is the queue of the specification *)

Lemma cbRead_Some b : ∃ b', (cbRead (Some b)).2 = Some b'.
Proof. unfold cbRead. destruct (dataCount b =? 0); by eexists. Qed.

Lemma cbWrite_Some b e : ∃ b', (cbWrite (Some b) e).2 = Some b'.
Proof.
  unfold cbWrite. destruct (e =? NULL); [by eexists|].
  destruct (dataCount b =? cbSize b); by eexists.
Qed.

Lemma holds_count b q : holds b q → Fifo.count q = dataCount b.
Proof.
  intros (W & _ & Hl). unfold Fifo.count. rewrite <-Hl, (length_live _ W).
  destruct W. lia.
Qed.

Lemma perform_holds c b q :
  holds b q →
  ∃ b', perform c (Some b) = ((Fifo.perform c q).1, Some b') ∧
        holds b' (Fifo.perform c q).2.
Proof.
  intros Hq. pose proof (holds_count _ _ Hq) as Hcnt.
  destruct Hq as (W & Hcap & Hl). destruct c as [e|]; simpl.
  - destruct (cbWrite_Some b e) as [b' Hb'].
    destruct (cbWrite (Some b) e) as [f ob] eqn:Hwr. simpl in Hb'. subst ob.
    exists b'. unfold Fifo.enqueue. rewrite Hcnt, <-Hcap.
    destruct (cbWrite_inv _ _ _ _ W Hwr)
      as [(-> & -> & Hrej)
         |(-> & He & Hc & W' & Hs & _ & _ & _ & Hl' & _)].
    + destruct (Z.eqb_spec e NULL); [done|].
      destruct (Z.eqb_spec (dataCount b) (cbSize b)); [done|].
      by destruct Hrej.
    + destruct (Z.eqb_spec e NULL); [done|].
      destruct (Z.eqb_spec (dataCount b) (cbSize b)); [done|]. simpl.
      split; [done|]. split_and!; simpl; [done|congruence|congruence].
  - destruct (cbRead_Some b) as [b' Hb'].
    destruct (cbRead (Some b)) as [p ob] eqn:Hrd. simpl in Hb'. subst ob.
    exists b'. unfold Fifo.dequeue. rewrite <-Hl.
    destruct (cbRead_inv _ _ _ W Hrd)
      as [(H0 & -> & ->)|(_ & W' & Hs & _ & _ & _ & Hl' & _)].
    + apply (live_nil _ W) in H0 as Hnil. rewrite Hnil. simpl.
      split; [done|]. by split_and!.
    + rewrite Hl'. simpl. split; [done|].
      split_and!; simpl; [done|congruence|done].
Qed.

Lemma run_holds cs b q :
  holds b q →
  ∃ b', run cs (Some b) = ((Fifo.run cs q).1, Some b') ∧
        holds b' (Fifo.run cs q).2.
Proof.
  revert b q. induction cs as [|c cs IH]; intros b q Hq; simpl.
  - by exists b.
  - destruct (perform_holds c b q Hq) as (b1 & Hp & Hq1).
    destruct (IH b1 _ Hq1) as (b2 & Hr & Hq2).
    exists b2.
    destruct (Fifo.perform c q) as [a q1]. simpl in *.
    destruct (Fifo.run cs q1) as [az q2]. simpl in *.
    by rewrite Hp, Hr.
Qed.

(** ** The sample structures are reachable *)

Lemma sample_buffer_reachable_nonnull : reachable_nonnull 4 sample_buffer.
Proof.
  apply (reach_write _ _ (mkCircBuffer [0; 0; 9; 0] 4 2 3 1) 1 1);
    [|reflexivity].
  apply (reach_read _ _ (mkCircBuffer [0; 8; 9; 0] 4 1 3 2) 8);
    [|reflexivity].
  apply (reach_read _ _ (mkCircBuffer [7; 8; 9; 0] 4 0 3 3) 7);
    [|reflexivity].
  apply (reach_write _ _ (mkCircBuffer [7; 8; 0; 0] 4 0 2 2) 9 1);
    [|reflexivity].
  apply (reach_write _ _ (mkCircBuffer [7; 0; 0; 0] 4 0 1 1) 8 1);
    [|reflexivity].
  apply (reach_write _ _ (mkCircBuffer [0; 0; 0; 0] 4 0 0 0) 7 1);
    [|reflexivity].
  apply reach_create; [|reflexivity].
  unfold is_ulong, ULONG_RANGE. lia.
Defined.

Lemma sample_buffer_reachable : reachable 4 sample_buffer.
Proof.
  exact (reachable_nonnull_reachable _ _ sample_buffer_reachable_nonnull).
Defined.

Lemma null_pasted_buffer_reachable : reachable 2 null_pasted_buffer.
Proof.
  apply (reach_paste _ _ (mkCircBuffer [0; 0] 2 0 0 0) (Some [NULL; 5]) 2 0 2);
    [| | | |reflexivity].
  - apply reach_create; [|reflexivity]. unfold is_ulong, ULONG_RANGE. lia.
  - unfold is_ulong, ULONG_RANGE. lia.
  - simpl. lia.
  - simpl. by repeat constructor.
Defined.

(** ** FIFO order *)

(** Writing [es] and reading everything back, from any well-formed
    structure with room for [es]. *)
Lemma write_then_read b es :
  wf b → Forall (λ p, p ≠ NULL) es →
  Z.of_nat (length es) ≤ cbSize b - dataCount b →
  ∃ b1 b2,
    cbWrite_all es (Some b) = (replicate (length es) 1, Some b1) ∧
    cbRead_n (length (live b ++ es)) (Some b1) = (live b ++ es, Some b2).
Proof.
  intros W Hes Hlen.
  destruct (cbWrite_all_spec es b W Hes Hlen)
    as (b1 & Hwa & W1 & Hs1 & _ & Hc1 & Hcells1).
  destruct (filled_live b b1 es W Hlen Hc1 Hcells1) as [Hl1 _].
  pose proof (length_live _ W1) as Hlen1. rewrite Hl1 in Hlen1.
  destruct (cbRead_n_spec (length (live b ++ es)) b1 W1)
    as (b2 & Hrn & _); [destruct W1; lia|].
  exists b1, b2. split; [done|]. rewrite Hrn. do 2 f_equal.
  by rewrite Hlen1, <-Hl1.
Qed.

(** C1 (FIFO order).  On a buffer [b0] created with capacity [c]: writing
    the non-null elements [es], no more than [c] of them, with [cbWrite]
    and then calling [cbRead] as many times returns [es] in that order.
    The same holds wherever the cursors stand: on every structure [b]
    reached from [b0], writing [es] into the free cells and reading
    everything returns the entries that were live, oldest first, followed
    by [es]; and every interleaving of [cbWrite] and [cbRead] calls is
    answered as by the queue of the specification holding the live
    entries, which hands out its elements in the order they were written.
    (That the elements are distinct is not needed.) *)
Theorem fifo_order (c : Z) (b0 : CircBuffer) :
  is_ulong c →
  createCBuffer c true true = Some b0 →
  (∀ es : list ptr,
     Z.of_nat (length es) ≤ c → Forall (λ p, p ≠ NULL) es →
     ∃ b1 b2,
       cbWrite_all es (Some b0) = (replicate (length es) 1, Some b1) ∧
       cbRead_n (length es) (Some b1) = (es, Some b2)) ∧
  (∀ b : CircBuffer,
     reachable c b →
     (∀ es : list ptr,
        Z.of_nat (length es) ≤ c - dataCount b →
        Forall (λ p, p ≠ NULL) es →
        ∃ b1 b2,
          cbWrite_all es (Some b) = (replicate (length es) 1, Some b1) ∧
          cbRead_n (length (live b ++ es)) (Some b1)
          = (live b ++ es, Some b2)) ∧
     (∀ cs : list call,
        ∃ b1,
          run cs (Some b)
          = ((Fifo.run cs (Fifo.mk c (live b))).1, Some b1) ∧
          live b1 = Fifo.elements (Fifo.run cs (Fifo.mk c (live b))).2)).
Proof.
  intros Hc Hcr. split.
  - intros es Hlen Hes.
    destruct (createCBuffer_spec _ _ Hc Hcr) as (_ & Hb0 & W & Hl & _).
    destruct (write_then_read b0 es W Hes) as (b1 & b2 & Hwa & Hrn).
    { subst b0. simpl. lia. }
    rewrite Hl in Hrn. by exists b1, b2.
  - intros b Hb. pose proof (reachable_wf _ _ Hb) as W.
    pose proof (reachable_size _ _ Hb) as HS. split.
    + intros es Hlen Hes. apply write_then_read; [done..|]. by rewrite HS.
    + intros cs.
      destruct (run_holds cs b (Fifo.mk c (live b)))
        as (b1 & Hr & _ & _ & Hl); [by split_and!|].
      by exists b1.
Qed.

Lemma fifo_order_witness :
  (∀ es : list ptr,
     Z.of_nat (length es) ≤ 3 → Forall (λ p, p ≠ NULL) es →
     ∃ b1 b2,
       cbWrite_all es (Some (mkCircBuffer [0; 0; 0] 3 0 0 0))
       = (replicate (length es) 1, Some b1) ∧
       cbRead_n (length es) (Some b1) = (es, Some b2)) ∧
  (∀ b : CircBuffer,
     reachable 3 b →
     (∀ es : list ptr,
        Z.of_nat (length es) ≤ 3 - dataCount b →
        Forall (λ p, p ≠ NULL) es →
        ∃ b1 b2,
          cbWrite_all es (Some b) = (replicate (length es) 1, Some b1) ∧
          cbRead_n (length (live b ++ es)) (Some b1)
          = (live b ++ es, Some b2)) ∧
     (∀ cs : list call,
        ∃ b1,
          run cs (Some b)
          = ((Fifo.run cs (Fifo.mk 3 (live b))).1, Some b1) ∧
          live b1 = Fifo.elements (Fifo.run cs (Fifo.mk 3 (live b))).2)).
Proof.
  apply (fifo_order 3 (mkCircBuffer [0; 0; 0] 3 0 0 0)).
  - unfold is_ulong, ULONG_RANGE. lia.
  - reflexivity.
Defined.

(** ** Bounds and the relation between the cursors *)

(** C7 (cursor and count bounds).  In every structure reached from a buffer
    created with capacity [c]: [c] is positive and is the size of the
    structure, the count lies in [0, c], both cursors are indices in
    [0, c), and a successful [cbRead] or [cbWrite] moves its cursor by one
    cell, back to 0 when it reaches [c]. *)
Theorem cursor_count_bounds (c : Z) (b : CircBuffer) :
  reachable c b →
  0 < c ∧ cbSize b = c ∧
  0 ≤ dataCount b ≤ c ∧
  0 ≤ _readPtr b < c ∧ 0 ≤ _writePtr b < c ∧
  (∀ p b', cbRead (Some b) = (p, Some b') → dataCount b ≠ 0 →
     _readPtr b' = (if _readPtr b + 1 =? c then 0 else _readPtr b + 1) ∧
     0 ≤ _readPtr b' < c) ∧
  (∀ e b', cbWrite (Some b) e = (1, Some b') →
     _writePtr b' = (if _writePtr b + 1 =? c then 0 else _writePtr b + 1) ∧
     0 ≤ _writePtr b' < c).
Proof.
  intros Hb. pose proof (reachable_wf _ _ Hb) as W.
  pose proof (reachable_size _ _ Hb) as <-.
  split_and!; try (destruct W; lia).
  - intros p b' Hrd Hc.
    destruct (cbRead_inv _ _ _ W Hrd)
      as [(? & _)|(_ & W' & HS & _ & _ & Hptr & _)]; [done|].
    split; [done|]. rewrite <-HS. by destruct W'.
  - intros e b' Hwr.
    destruct (cbWrite_inv _ _ _ _ W Hwr)
      as [(? & _)|(_ & _ & _ & W' & HS & _ & _ & Hptr & _)]; [done|].
    split; [done|]. rewrite <-HS. by destruct W'.
Qed.

Lemma cursor_count_bounds_witness :
  0 < 4 ∧ cbSize sample_buffer = 4 ∧
  0 ≤ dataCount sample_buffer ≤ 4 ∧
  0 ≤ _readPtr sample_buffer < 4 ∧ 0 ≤ _writePtr sample_buffer < 4 ∧
  (∀ p b', cbRead (Some sample_buffer) = (p, Some b') →
     dataCount sample_buffer ≠ 0 →
     _readPtr b' = (if _readPtr sample_buffer + 1 =? 4 then 0
                    else _readPtr sample_buffer + 1) ∧
     0 ≤ _readPtr b' < 4) ∧
  (∀ e b', cbWrite (Some sample_buffer) e = (1, Some b') →
     _writePtr b' = (if _writePtr sample_buffer + 1 =? 4 then 0
                     else _writePtr sample_buffer + 1) ∧
     0 ≤ _writePtr b' < 4).
Proof.
  apply (cursor_count_bounds 4 sample_buffer).
  exact sample_buffer_reachable.
Defined.

(** C10 (relation between the cursors and the count).  In every reachable
    structure the write cursor is the read cursor plus the count, modulo
    the size; hence the count and one cursor give the other one. *)
Theorem cursor_count_relation (c : Z) (b : CircBuffer) :
  reachable c b →
  _writePtr b = (_readPtr b + dataCount b) `mod` cbSize b ∧
  _readPtr b = (_writePtr b - dataCount b) `mod` cbSize b.
Proof.
  intros Hb. pose proof (reachable_wf _ _ Hb) as W.
  pose proof (wf_cursors_cases _ W) as Hcur.
  split; [by destruct W|]. destruct W.
  destruct Hcur as [[? ->]|[? ->]].
  - rewrite Z.mod_small; lia.
  - replace (_readPtr b + dataCount b - cbSize b - dataCount b)
      with (_readPtr b + (-1) * cbSize b) by lia.
    rewrite Z.mod_add, Z.mod_small; lia.
Qed.

Lemma cursor_count_relation_witness :
  _writePtr sample_buffer
  = (_readPtr sample_buffer + dataCount sample_buffer)
      `mod` cbSize sample_buffer ∧
  _readPtr sample_buffer
  = (_writePtr sample_buffer - dataCount sample_buffer)
      `mod` cbSize sample_buffer.
Proof.
  apply (cursor_count_relation 4 sample_buffer).
  exact sample_buffer_reachable.
Defined.

(** ** The bulk calls: refusals and best effort *)

Lemma copy_cells_count b out n :
  dataCount (copy_cells b out n).2 = ulong (dataCount b - n).
Proof. unfold copy_cells. by destruct (_ <? _). Qed.

Lemma paste_cells_count b inp n :
  dataCount (paste_cells b inp n) = ulong (dataCount b + n).
Proof. unfold paste_cells. by destruct (_ <? _). Qed.

(** In strict mode a request larger than the size is refused. *)
Lemma cbCopy_strict_oversize b dataBuf r :
  cbSize b < r → cbCopy (Some b) dataBuf r 0 = (0, dataBuf, Some b).
Proof.
  intros Hr. destruct dataBuf as [out|]; [|done].
  rewrite cbCopy_unfold. unfold copy_refused.
  destruct (Z.eqb_spec r 0); [done|].
  by destruct (Z.gtb_spec r (cbSize b)); [|lia].
Qed.

Lemma cbPaste_strict_oversize b dataBuf r :
  cbSize b < r → cbPaste (Some b) dataBuf r 0 = (0, Some b).
Proof.
  intros Hr. destruct dataBuf as [inp|]; [|done].
  rewrite cbPaste_unfold. unfold paste_refused.
  destruct (Z.eqb_spec r 0); [done|].
  by destruct (Z.gtb_spec r (cbSize b)); [|lia].
Qed.

(** With [upTo] set, [cbCopy] moves what is asked for or what is there. *)
Lemma cbCopy_best_effort b blk r upTo :
  wf b → 0 < r → upTo ≠ 0 →
  ∃ out' b',
    cbCopy (Some b) (Some blk) r upTo
    = (Z.min r (dataCount b), Some out', Some b') ∧
    dataCount b' = dataCount b - Z.min r (dataCount b).
Proof.
  intros W Hr Hup. rewrite cbCopy_unfold. unfold copy_refused, bulk_ops.
  destruct W.
  destruct (Z.eqb_spec r 0); [lia|].
  destruct (Z.eqb_spec upTo 0); [done|]. simpl.
  destruct (Z.eqb_spec (dataCount b) 0) as [H0|H0]; simpl.
  - exists blk, b. rewrite H0. split; [do 2 f_equal|]; lia.
  - eexists _, _. split; [|rewrite copy_cells_count].
    + do 2 f_equal. destruct (Z.geb_spec (dataCount b) r); lia.
    + rewrite ulong_small
        by (destruct (Z.geb_spec (dataCount b) r); in_ulong).
      destruct (Z.geb_spec (dataCount b) r); lia.
Qed.

(** With [upTo] set, [cbPaste] moves what is asked for or what fits. *)
Lemma cbPaste_best_effort b blk r upTo :
  wf b → 0 < r → upTo ≠ 0 →
  ∃ b',
    cbPaste (Some b) (Some blk) r upTo
    = (Z.min r (cbSize b - dataCount b), Some b') ∧
    dataCount b' = dataCount b + Z.min r (cbSize b - dataCount b).
Proof.
  intros W Hr Hup. rewrite cbPaste_unfold. unfold paste_refused, bulk_ops.
  destruct W.
  rewrite (ulong_small (cbSize b - dataCount b)) by in_ulong.
  destruct (Z.eqb_spec r 0); [lia|].
  destruct (Z.eqb_spec upTo 0); [done|]. simpl.
  destruct (Z.eqb_spec (cbSize b - dataCount b) 0) as [H0|H0]; simpl.
  - exists b. rewrite H0. split; [f_equal|]; lia.
  - eexists. split; [|rewrite paste_cells_count].
    + f_equal. destruct (Z.geb_spec (cbSize b - dataCount b) r); lia.
    + rewrite ulong_small
        by (destruct (Z.geb_spec (cbSize b - dataCount b) r); in_ulong).
      destruct (Z.geb_spec (cbSize b - dataCount b) r); lia.
Qed.

(** C4 (strict-mode capacity rejection).  For a requested amount [r] above
    the size of the buffer, [cbCopy] and [cbPaste] in strict mode
    ([upTo = 0]) return 0 and leave the buffer (and the block) as they
    are, whatever the buffer holds.  In best-effort mode ([upTo ≠ 0]) the
    same request is served on a reachable buffer: [cbCopy] moves all the
    [dataCount] entries there are and [cbPaste] fills all the free cells. *)
Theorem strict_capacity_rejection
    (b : CircBuffer) (dataBuf : option (list ptr)) (r : Z) :
  cbSize b < r →
  cbCopy (Some b) dataBuf r 0 = (0, dataBuf, Some b) ∧
  cbPaste (Some b) dataBuf r 0 = (0, Some b) ∧
  (∀ c blk upTo, reachable c b → upTo ≠ 0 →
     (∃ out' b', cbCopy (Some b) (Some blk) r upTo
                 = (dataCount b, Some out', Some b') ∧ dataCount b' = 0) ∧
     (∃ b', cbPaste (Some b) (Some blk) r upTo
            = (cbSize b - dataCount b, Some b') ∧
            dataCount b' = cbSize b)).
Proof.
  intros Hr. split_and!.
  - by apply cbCopy_strict_oversize.
  - by apply cbPaste_strict_oversize.
  - intros c blk upTo Hb Hup. pose proof (reachable_wf _ _ Hb) as W.
    assert (0 < r) by (destruct W; lia).
    destruct (cbCopy_best_effort b blk r upTo W) as (out' & b1 & Hcp & Hc1);
      [done..|].
    destruct (cbPaste_best_effort b blk r upTo W) as (b2 & Hps & Hc2);
      [done..|].
    destruct W.
    rewrite Z.min_r in Hcp, Hc1 by lia. rewrite Z.min_r in Hps, Hc2 by lia.
    split; [exists out', b1|exists b2]; split; try done; lia.
Qed.

Lemma strict_capacity_rejection_witness :
  cbCopy (Some sample_buffer) (Some [0; 0; 0; 0; 0]) 5 0
  = (0, Some [0; 0; 0; 0; 0], Some sample_buffer) ∧
  cbPaste (Some sample_buffer) (Some [0; 0; 0; 0; 0]) 5 0
  = (0, Some sample_buffer) ∧
  (∀ c blk upTo, reachable c sample_buffer → upTo ≠ 0 →
     (∃ out' b', cbCopy (Some sample_buffer) (Some blk) 5 upTo
                 = (dataCount sample_buffer, Some out', Some b') ∧
                 dataCount b' = 0) ∧
     (∃ b', cbPaste (Some sample_buffer) (Some blk) 5 upTo
            = (cbSize sample_buffer - dataCount sample_buffer, Some b') ∧
            dataCount b' = cbSize sample_buffer)).
Proof.
  apply (strict_capacity_rejection sample_buffer (Some [0; 0; 0; 0; 0]) 5).
  simpl. lia.
Defined.

(** What a best-effort [cbCopy] delivers, the block being long enough for
    the entries moved. *)
Lemma cbCopy_best_effort_data b blk r upTo out' b' :
  wf b → 0 < r → upTo ≠ 0 →
  cbCopy (Some b) (Some blk) r upTo
  = (Z.min r (dataCount b), Some out', Some b') →
  Z.min r (dataCount b) ≤ Z.of_nat (length blk) →
  out' = take (Z.to_nat (Z.min r (dataCount b))) (live b)
         ++ drop (Z.to_nat (Z.min r (dataCount b))) blk ∧
  live b' = drop (Z.to_nat (Z.min r (dataCount b))) (live b) ∧
  vacant b' = vacant b ++ replicate (Z.to_nat (Z.min r (dataCount b))) NULL.
Proof.
  intros W Hr Hup Hcp Hblk. rewrite cbCopy_unfold in Hcp.
  set (n := Z.min r (dataCount b)) in *.
  assert (0 ≤ n ≤ dataCount b) as Hn by (destruct W; lia).
  destruct (copy_refused b r upTo).
  - injection Hcp as Hz <- <-. rewrite <-Hz. simpl.
    by rewrite app_nil_r.
  - injection Hcp as Hops Hout Hb'. rewrite Hops in Hout, Hb'.
    destruct (copy_cells_spec b blk n W Hn Hblk)
      as (b1 & Heq & _ & _ & _ & Hc1 & Hcells1).
    rewrite Heq in Hout, Hb'. simpl in Hout, Hb'. subst out' b1.
    destruct (consumed_live b b' n W Hn Hc1 Hcells1) as [Hl Hv].
    split_and!; [|done..].
    unfold live. rewrite take_take. do 2 f_equal. lia.
Qed.

(** What a best-effort [cbPaste] stores, the block being long enough for
    the entries moved. *)
Lemma cbPaste_best_effort_data b blk r upTo b' :
  wf b → 0 < r → upTo ≠ 0 →
  cbPaste (Some b) (Some blk) r upTo
  = (Z.min r (cbSize b - dataCount b), Some b') →
  Z.min r (cbSize b - dataCount b) ≤ Z.of_nat (length blk) →
  live b' = live b ++ take (Z.to_nat (Z.min r (cbSize b - dataCount b))) blk ∧
  vacant b' = drop (Z.to_nat (Z.min r (cbSize b - dataCount b))) (vacant b).
Proof.
  intros W Hr Hup Hps Hblk. rewrite cbPaste_unfold in Hps.
  set (n := Z.min r (cbSize b - dataCount b)) in *.
  assert (0 ≤ n ≤ cbSize b - dataCount b) as Hn by (destruct W; lia).
  destruct (paste_refused b r upTo).
  - injection Hps as Hz <-. rewrite <-Hz. simpl.
    by rewrite app_nil_r.
  - injection Hps as Hops Hb'. rewrite Hops in Hb'. subst b'.
    destruct (paste_cells_spec b blk n W Hn Hblk)
      as (_ & _ & _ & Hc1 & Hcells1).
    assert (length (take (Z.to_nat n) blk) = Z.to_nat n) as Hk
      by (rewrite length_take; lia).
    destruct (filled_live b (paste_cells b blk n) (take (Z.to_nat n) blk) W)
      as [Hl Hv]; [lia|lia|done|].
    by rewrite Hk in Hv.
Qed.

(** C5 (best-effort capping).  On a reachable buffer, for a requested
    amount [r > 0] and a non-null block, [cbCopy] in best-effort mode
    returns [min r dataCount] (0 on an empty buffer) and takes as much off
    the count, which leaves the buffer empty when [r >= dataCount];
    [cbPaste] in best-effort mode returns [min r (cbSize - dataCount)]
    (0 on a full buffer) and adds as much to the count.  These amounts are
    moved indeed: the block being long enough for them, [cbCopy] puts that
    many of the oldest live entries, in order, at the start of the block,
    leaves the rest of the block alone, keeps the other live entries and
    clears the cells it emptied; [cbPaste] appends that many entries from
    the start of the block, in order, after the live entries. *)
Theorem best_effort_capping
    (c : Z) (b : CircBuffer) (blk : list ptr) (r upTo : Z) :
  reachable c b → 0 < r → upTo ≠ 0 →
  (∃ out' b',
     cbCopy (Some b) (Some blk) r upTo
     = (Z.min r (dataCount b), Some out', Some b') ∧
     dataCount b' = dataCount b - Z.min r (dataCount b) ∧
     (dataCount b = 0 → Z.min r (dataCount b) = 0) ∧
     (dataCount b ≤ r → dataCount b' = 0) ∧
     (Z.min r (dataCount b) ≤ Z.of_nat (length blk) →
      out' = take (Z.to_nat (Z.min r (dataCount b))) (live b)
             ++ drop (Z.to_nat (Z.min r (dataCount b))) blk ∧
      live b' = drop (Z.to_nat (Z.min r (dataCount b))) (live b) ∧
      vacant b'
      = vacant b ++ replicate (Z.to_nat (Z.min r (dataCount b))) NULL)) ∧
  (∃ b',
     cbPaste (Some b) (Some blk) r upTo
     = (Z.min r (cbSize b - dataCount b), Some b') ∧
     dataCount b' = dataCount b + Z.min r (cbSize b - dataCount b) ∧
     (dataCount b = cbSize b → Z.min r (cbSize b - dataCount b) = 0) ∧
     (Z.min r (cbSize b - dataCount b) ≤ Z.of_nat (length blk) →
      live b'
      = live b ++ take (Z.to_nat (Z.min r (cbSize b - dataCount b))) blk ∧
      vacant b'
      = drop (Z.to_nat (Z.min r (cbSize b - dataCount b))) (vacant b))).
Proof.
  intros Hb Hr Hup. pose proof (reachable_wf _ _ Hb) as W.
  destruct (cbCopy_best_effort b blk r upTo W) as (out' & b1 & Hcp & Hc1);
    [done..|].
  destruct (cbPaste_best_effort b blk r upTo W) as (b2 & Hps & Hc2);
    [done..|].
  split; [exists out', b1|exists b2]; split_and!; try done; try lia.
  - by apply (cbCopy_best_effort_data b blk r upTo).
  - by apply (cbPaste_best_effort_data b blk r upTo).
Qed.

(** At [sample_buffer], whose live entries are 9 and 1, with a block of
    three cells and three entries asked for: [cbCopy] returns 2 and
    delivers 9 and 1, [cbPaste] returns 2 and stores 5 and 6. *)
Lemma best_effort_capping_witness :
  (∃ out' b',
     cbCopy (Some sample_buffer) (Some [5; 6; 7]) 3 1
     = (2, Some out', Some b') ∧
     dataCount b' = 0 ∧
     out' = [9; 1; 7] ∧ live b' = [] ∧ vacant b' = [0; 0; 0; 0]) ∧
  (∃ b',
     cbPaste (Some sample_buffer) (Some [5; 6; 7]) 3 1 = (2, Some b') ∧
     dataCount b' = 4 ∧
     live b' = [9; 1; 5; 6] ∧ vacant b' = []).
Proof.
  destruct (best_effort_capping 4 sample_buffer [5; 6; 7] 3 1)
    as [(out' & b1 & Hcp & Hc1 & _ & _ & Hdata1) (b2 & Hps & Hc2 & _ & Hdata2)].
  - exact sample_buffer_reachable.
  - lia.
  - lia.
  - destruct Hdata1 as (Ho & Hl & Hv); [simpl; lia|].
    destruct Hdata2 as (Hl2 & Hv2); [simpl; lia|].
    split; [exists out', b1|exists b2]; split_and!; assumption.
Defined.

(** ** Bulk calls and successive single calls *)

(** C8 (bulk calls are successive single calls).  On a reachable buffer,
    when [cbCopy] returns [n] with the block [out'] and the buffer [b'],
    [n] successive [cbRead] calls return the first [n] cells of [out'] and
    leave the same [b'], and the rest of the block is untouched; when
    [cbPaste] returns [n] and leaves [b'], the [n] entries it took being
    non-null, [cbWrite] of these entries one after the other succeeds [n]
    times and leaves the same [b'].  This holds whether or not the transfer
    was split at the end of the data area. *)
Theorem bulk_as_single
    (c : Z) (b : CircBuffer) (blk : list ptr) (r upTo n : Z) :
  reachable c b → is_ulong r → r ≤ Z.of_nat (length blk) →
  (∀ out' b',
     cbCopy (Some b) (Some blk) r upTo = (n, Some out', Some b') →
     cbRead_n (Z.to_nat n) (Some b) = (take (Z.to_nat n) out', Some b') ∧
     drop (Z.to_nat n) out' = drop (Z.to_nat n) blk) ∧
  (∀ b',
     cbPaste (Some b) (Some blk) r upTo = (n, Some b') →
     Forall (λ p, p ≠ NULL) (take (Z.to_nat n) blk) →
     cbWrite_all (take (Z.to_nat n) blk) (Some b)
     = (replicate (Z.to_nat n) 1, Some b')).
Proof.
  intros Hb Hr Hblk. pose proof (reachable_wf _ _ Hb) as W. split.
  - intros out' b'. rewrite cbCopy_unfold.
    destruct (copy_refused b r upTo) eqn:Href; intros Hcp.
    { by simplify_eq. }
    destruct (copy_accepted b r upTo W Hr Href) as [Hops ?].
    simplify_eq. set (n := bulk_ops _ _ _) in *.
    split; [apply copy_cells_as_reads; try done; lia|].
    destruct (copy_cells_spec b blk n W) as (b1 & -> & _); [lia..|]. simpl.
    apply drop_app_length'.
    rewrite length_take, length_cells. destruct W. lia.
  - intros b'. rewrite cbPaste_unfold.
    destruct (paste_refused b r upTo) eqn:Href; intros Hps Hnn.
    { by simplify_eq. }
    destruct (paste_accepted b r upTo W Hr Href) as [Hops ?].
    simplify_eq. apply paste_cells_as_writes; try done; lia.
Qed.

Lemma bulk_as_single_witness :
  (∀ out' b',
     cbCopy (Some sample_buffer) (Some [5; 6; 7]) 3 1
     = (2, Some out', Some b') →
     cbRead_n (Z.to_nat 2) (Some sample_buffer)
     = (take (Z.to_nat 2) out', Some b') ∧
     drop (Z.to_nat 2) out' = drop (Z.to_nat 2) [5; 6; 7]) ∧
  (∀ b',
     cbPaste (Some sample_buffer) (Some [5; 6; 7]) 3 1 = (2, Some b') →
     Forall (λ p, p ≠ NULL) (take (Z.to_nat 2) [5; 6; 7]) →
     cbWrite_all (take (Z.to_nat 2) [5; 6; 7]) (Some sample_buffer)
     = (replicate (Z.to_nat 2) 1, Some b')).
Proof.
  apply (bulk_as_single 4 sample_buffer [5; 6; 7] 3 1 2).
  - exact sample_buffer_reachable.
  - unfold is_ulong, ULONG_RANGE. lia.
  - simpl. lia.
Defined.

(** ** Deletion *)

Lemma filter_all_null (l : list ptr) :
  Forall (λ p, p = NULL) l → filter (λ p, p ≠ NULL) l = [].
Proof.
  induction 1 as [|x l Hx _ IH]; [done|].
  rewrite filter_cons. by destruct (decide (x ≠ NULL)).
Qed.

Lemma filter_ring {A} (P : A → Prop) `{∀ x, Decision (P x)} r (l : list A) :
  filter P (ring r l) ≡ₚ filter P l.
Proof.
  unfold ring. rewrite filter_app, Permutation_app_comm, <-filter_app.
  by rewrite take_drop.
Qed.

(** The [free] calls of the loop of [deleteCBuffer]. *)
Lemma released_entries (l pre : list ptr) (acc : list block) :
  foldl (λ rel i, free_entry (load (pre ++ l) i) rel) acc
        (seqZ (Z.of_nat (length pre)) (Z.of_nat (length l)))
  = acc ++ (Entry <$> filter (λ p, p ≠ NULL) l).
Proof.
  revert pre acc. induction l as [|x l IH]; intros pre acc.
  - simpl. by rewrite app_nil_r.
  - rewrite seqZ_cons by (simpl; lia). simpl foldl.
    assert (load (pre ++ x :: l) (Z.of_nat (length pre)) = x) as ->.
    { unfold load. by rewrite Nat2Z.id, list_lookup_middle. }
    replace (Z.succ (Z.of_nat (length pre)))
      with (Z.of_nat (length (pre ++ [x]))) by (rewrite length_app; simpl; lia).
    replace (Z.pred _) with (Z.of_nat (length l)) by (simpl; lia).
    rewrite (cons_middle x pre l), app_assoc, IH.
    rewrite filter_cons. unfold free_entry.
    destruct (decide (x ≠ NULL)) as [Hx|Hx].
    + destruct (Z.eqb_spec x NULL); [done|].
      by rewrite <-app_assoc.
    + destruct (Z.eqb_spec x NULL); [done|]. by destruct Hx.
Qed.

Lemma deleteCBuffer_entries b toFree :
  wf b → toFree ≠ 0 →
  deleteCBuffer (Some b) toFree
  = (Entry <$> filter (λ p, p ≠ NULL) (_dataPtr b)) ++ [DataArea; Structure].
Proof.
  intros W Hfree. unfold deleteCBuffer.
  destruct (Z.eqb_spec toFree 0); [done|]. f_equal.
  destruct W as [_ <- _ _ _ _].
  apply (released_entries (_dataPtr b) [] []).
Qed.

(** C9 (destruction ownership).  For a reachable buffer, [deleteCBuffer]
    with [toFree] set hands to [free], besides the data area and the
    structure, exactly the non-null live entries, each cell once (the
    vacant cells hold [NULL], on which [free] does nothing); with
    [toFree = 0] it frees the data area and the structure only; on a null
    buffer it frees nothing. *)
Theorem destruction_ownership (c : Z) (b : CircBuffer) (toFree : Z) :
  reachable c b →
  (toFree ≠ 0 →
   ∃ released : list ptr,
     deleteCBuffer (Some b) toFree
     = (Entry <$> released) ++ [DataArea; Structure] ∧
     released ≡ₚ filter (λ p, p ≠ NULL) (live b) ∧
     (live_nonnull b → released ≡ₚ live b)) ∧
  deleteCBuffer (Some b) 0 = [DataArea; Structure] ∧
  deleteCBuffer None toFree = [].
Proof.
  intros Hb. pose proof (reachable_wf _ _ Hb) as W.
  pose proof (reachable_vacant_null _ _ Hb) as Hv.
  split_and!; [|done..]. intros Hfree.
  exists (filter (λ p, p ≠ NULL) (_dataPtr b)).
  assert (filter (λ p, p ≠ NULL) (_dataPtr b)
          ≡ₚ filter (λ p, p ≠ NULL) (live b)) as Hperm.
  { rewrite <-(filter_ring _ (Z.to_nat (_readPtr b))).
    fold (cells b). rewrite (live_vacant b), filter_app.
    by rewrite (filter_all_null (vacant b)), app_nil_r. }
  split_and!; [by apply deleteCBuffer_entries|done|].
  intros Hl. rewrite Hperm.
  clear -Hl. unfold live_nonnull in Hl.
  induction Hl as [|x l Hx _ IH]; [done|].
  rewrite filter_cons. destruct (decide (x ≠ NULL)); [|done].
  by rewrite IH.
Qed.

Lemma destruction_ownership_witness :
  (1 ≠ 0 →
   ∃ released : list ptr,
     deleteCBuffer (Some sample_buffer) 1
     = (Entry <$> released) ++ [DataArea; Structure] ∧
     released ≡ₚ filter (λ p, p ≠ NULL) (live sample_buffer) ∧
     (live_nonnull sample_buffer → released ≡ₚ live sample_buffer)) ∧
  deleteCBuffer (Some sample_buffer) 0 = [DataArea; Structure] ∧
  deleteCBuffer None 1 = [].
Proof.
  apply (destruction_ownership 4 sample_buffer 1).
  exact sample_buffer_reachable.
Defined.

(** ** Null entries

    [cbWrite] refuses a null entry, [cbPaste] copies its block without
    looking at the entries.  As long as [cbPaste] is handed non-null
    entries, the live cells hold non-null entries, a [NULL] answer of
    [cbRead] means that nothing was read, and a call that reports a failure
    has changed nothing. *)

Lemma filter_all_nonnull (l : list ptr) :
  Forall (λ p, p ≠ NULL) l → filter (λ p, p ≠ NULL) l = l.
Proof.
  induction 1 as [|x l Hx _ IH]; [done|].
  rewrite filter_cons. destruct (decide (x ≠ NULL)); [|done]. by rewrite IH.
Qed.

(** Exactly [dataCount] cells hold an entry and the others hold [NULL]. *)
Lemma slot_occupancy_nonnull c b :
  reachable_nonnull c b →
  live_nonnull b ∧ vacant_null b ∧ occupied b = dataCount b.
Proof.
  intros Hb. pose proof (reachable_nonnull_live _ _ Hb) as Hl.
  apply reachable_nonnull_reachable in Hb.
  pose proof (reachable_wf _ _ Hb) as W.
  pose proof (reachable_vacant_null _ _ Hb) as Hv.
  split_and!; [done..|]. unfold occupied.
  rewrite <-(filter_ring _ (Z.to_nat (_readPtr b))). fold (cells b).
  rewrite (live_vacant b), filter_app, (filter_all_null (vacant b)) by done.
  rewrite app_nil_r, filter_all_nonnull, (length_live _ W) by done.
  destruct W. lia.
Qed.

(** The calls that answer 0 have changed nothing, whatever the structure. *)
Lemma cbWrite_failure_atomic cBuff e cBuff' :
  cbWrite cBuff e = (0, cBuff') → cBuff' = cBuff.
Proof.
  unfold cbWrite. destruct cBuff as [b|]; [|by intros [= <-]].
  destruct (e =? NULL); [by intros [= <-]|].
  destruct (dataCount b =? cbSize b); [by intros [= <-]|done].
Qed.

Lemma bulk_ops_nonzero available bufSize upTo :
  available ≠ 0 → bufSize ≠ 0 → bulk_ops available bufSize upTo ≠ 0.
Proof.
  intros ??. unfold bulk_ops. destruct (upTo =? 0); [done|].
  by destruct (available >=? bufSize).
Qed.

Lemma cbCopy_failure_atomic cBuff dataBuf bufSize upTo dataBuf' cBuff' :
  cbCopy cBuff dataBuf bufSize upTo = (0, dataBuf', cBuff') →
  dataBuf' = dataBuf ∧ cBuff' = cBuff.
Proof.
  destruct cBuff as [b|], dataBuf as [out|]; try by intros [= <- <-].
  rewrite cbCopy_unfold.
  destruct (copy_refused b bufSize upTo) eqn:Href; [by intros [= <- <-]|].
  intros [= Hops _ _]. exfalso. revert Hops. unfold copy_refused in Href.
  apply orb_false_elim in Href as [Hsz Hav].
  apply orb_false_elim in Hsz as [Hsz _].
  apply orb_false_elim in Hav as [Hav _].
  apply bulk_ops_nonzero; by apply Z.eqb_neq.
Qed.

Lemma cbPaste_failure_atomic cBuff dataBuf bufSize upTo cBuff' :
  cbPaste cBuff dataBuf bufSize upTo = (0, cBuff') → cBuff' = cBuff.
Proof.
  destruct cBuff as [b|], dataBuf as [inp|]; try by intros [= <-].
  rewrite cbPaste_unfold.
  destruct (paste_refused b bufSize upTo) eqn:Href; [by intros [= <-]|].
  intros [= Hops _]. exfalso. revert Hops. unfold paste_refused in Href.
  apply orb_false_elim in Href as [Hsz Hav].
  apply orb_false_elim in Hsz as [Hsz _].
  apply orb_false_elim in Hav as [Hav _].
  apply bulk_ops_nonzero; by apply Z.eqb_neq.
Qed.

(** [cbRead] answers [NULL] on an empty buffer only, and has then changed
    nothing, as long as the live cells hold non-null entries. *)
Lemma cbRead_null_nonnull b cBuff' :
  wf b → live_nonnull b →
  cbRead (Some b) = (NULL, cBuff') → dataCount b = 0 ∧ cBuff' = Some b.
Proof.
  intros W Hl Hrd. destruct (cbRead_Some b) as [b' Hb'].
  rewrite Hrd in Hb'. simpl in Hb'. subst cBuff'.
  destruct (cbRead_inv _ _ _ W Hrd)
    as [(? & _ & ->)|(_ & _ & _ & _ & _ & _ & Hl' & _)]; [done|].
  unfold live_nonnull in Hl. rewrite Hl' in Hl.
  by apply Forall_cons in Hl as [? _].
Qed.

Lemma failure_atomic_nonnull c b :
  reachable_nonnull c b →
  (∀ cBuff', cbRead (Some b) = (NULL, cBuff') → cBuff' = Some b) ∧
  (∀ e cBuff', cbWrite (Some b) e = (0, cBuff') → cBuff' = Some b) ∧
  (∀ dataBuf bufSize upTo dataBuf' cBuff',
     cbCopy (Some b) dataBuf bufSize upTo = (0, dataBuf', cBuff') →
     dataBuf' = dataBuf ∧ cBuff' = Some b) ∧
  (∀ dataBuf bufSize upTo cBuff',
     cbPaste (Some b) dataBuf bufSize upTo = (0, cBuff') → cBuff' = Some b).
Proof.
  intros Hb. pose proof (reachable_nonnull_live _ _ Hb) as Hl.
  apply reachable_nonnull_reachable in Hb.
  pose proof (reachable_wf _ _ Hb) as W. split_and!.
  - intros cBuff' Hrd. by destruct (cbRead_null_nonnull _ _ W Hl Hrd).
  - intros e cBuff'. apply cbWrite_failure_atomic.
  - intros dataBuf bufSize upTo dataBuf' cBuff'. apply cbCopy_failure_atomic.
  - intros dataBuf bufSize upTo cBuff'. apply cbPaste_failure_atomic.
Qed.

(** When each of the two single-element calls fails, and what it does
    otherwise. *)
Lemma single_failure_conditions_nonnull c b :
  reachable_nonnull c b →
  (∀ e, (cbWrite (Some b) e).1 = 0 ↔ e = NULL ∨ dataCount b = cbSize b) ∧
  (∀ e, ¬ (e = NULL ∨ dataCount b = cbSize b) →
     ∃ b', cbWrite (Some b) e = (1, Some b') ∧ live b' = live b ++ [e] ∧
           dataCount b' = dataCount b + 1) ∧
  ((cbRead (Some b)).1 = NULL ↔ dataCount b = 0) ∧
  (dataCount b ≠ 0 →
     ∃ p b', cbRead (Some b) = (p, Some b') ∧ live b = p :: live b' ∧
             dataCount b' = dataCount b - 1) ∧
  (∀ e cBuff', cbWrite (Some b) e = (0, cBuff') → cBuff' = Some b) ∧
  (∀ cBuff', cbRead (Some b) = (NULL, cBuff') → cBuff' = Some b).
Proof.
  intros Hb. destruct (failure_atomic_nonnull _ _ Hb) as (Hrd0 & Hwr0 & _).
  pose proof (reachable_nonnull_live _ _ Hb) as Hl.
  apply reachable_nonnull_reachable in Hb.
  pose proof (reachable_wf _ _ Hb) as W.
  split_and!; [| | | |done..].
  - intros e. destruct (cbWrite_Some b e) as [b' Hb'].
    destruct (cbWrite (Some b) e) as [f ob] eqn:Hwr. simpl in *. subst ob.
    destruct (cbWrite_inv _ _ _ _ W Hwr)
      as [(-> & _ & Hrej)|(-> & He & Hc & _)]; [done|].
    split; [done|]. by intros [?|?].
  - intros e Hok. destruct (cbWrite_spec b e W)
      as (b' & Hwr & _ & _ & _ & ? & _); [tauto..|].
    exists b'. split_and!; [done| |done].
    by destruct (cbWrite_inv _ _ _ _ W Hwr)
      as [(? & _)|(_ & _ & _ & _ & _ & _ & _ & _ & ? & _)].
  - destruct (cbRead_Some b) as [b' Hb'].
    destruct (cbRead (Some b)) as [p ob] eqn:Hrd. simpl in *. subst ob.
    split.
    + intros ->. by destruct (cbRead_null_nonnull _ _ W Hl Hrd).
    + intros H0. by destruct (cbRead_inv _ _ _ W Hrd) as [(_ & ? & _)|(? & _)].
  - intros Hc. destruct (cbRead_Some b) as [b' Hb'].
    destruct (cbRead (Some b)) as [p ob] eqn:Hrd. simpl in *. subst ob.
    exists p, b'.
    by destruct (cbRead_inv _ _ _ W Hrd)
      as [(? & _)|(_ & _ & _ & _ & ? & _ & ? & _)].
Qed.

(** C3 (slot occupancy: exactly [dataCount] cells hold a non-null entry
    and no operation makes a live cell hold [NULL]).  The code departs from
    it in [cbPaste], which does not look at the entries it copies while
    [cbWrite] refuses a null one: after [createCBuffer 2] and [cbPaste] of
    the block [[NULL; 5]] in strict mode, two cells are counted as live,
    one cell only holds a non-null entry, and the oldest live cell holds
    [NULL]. *)
Theorem null_paste_breaks_occupancy :
  cbPaste (createCBuffer 2 true true) (Some [NULL; 5]) 2 0
  = (2, Some null_pasted_buffer) ∧
  reachable 2 null_pasted_buffer ∧
  dataCount null_pasted_buffer = 2 ∧
  occupied null_pasted_buffer = 1 ∧
  live null_pasted_buffer = [NULL; 5] ∧
  ¬ live_nonnull null_pasted_buffer.
Proof.
  split_and!; try reflexivity.
  - exact null_pasted_buffer_reachable.
  - unfold live_nonnull. intros Hl. by apply Forall_cons in Hl as [? _].
Qed.

(** C2 (atomic rejection: a call that answers [NULL] or 0 has changed
    nothing).  The code departs from it once [cbPaste] has stored a null
    entry: on the buffer left by [createCBuffer 2] and [cbPaste] of
    [[NULL; 5]], [cbRead] returns [NULL], the answer of a failed call, and
    has consumed a cell: the count and the read cursor have changed. *)
Theorem null_read_changes_buffer :
  reachable 2 null_pasted_buffer ∧
  cbRead (Some null_pasted_buffer)
  = (NULL, Some {| _dataPtr := [0; 5]; cbSize := 2;
                   _readPtr := 1; _writePtr := 0; dataCount := 1 |}) ∧
  (cbRead (Some null_pasted_buffer)).2 ≠ Some null_pasted_buffer.
Proof.
  split_and!; [exact null_pasted_buffer_reachable|reflexivity|].
  by intros [=].
Qed.

(** C6 (failure conditions of the single-element calls: [cbRead] returns
    [NULL] if and only if the buffer is null or empty).  The code departs
    from it once [cbPaste] has stored a null entry: on the buffer left by
    [createCBuffer 2] and [cbPaste] of [[NULL; 5]], which is neither null
    nor empty, [cbRead] returns [NULL]. *)
Theorem null_read_on_nonempty_buffer :
  reachable 2 null_pasted_buffer ∧
  (cbRead (Some null_pasted_buffer)).1 = NULL ∧
  dataCount null_pasted_buffer ≠ 0 ∧
  ¬ ((cbRead (Some null_pasted_buffer)).1 = NULL ↔
     dataCount null_pasted_buffer = 0).
Proof.
  split_and!; [exact null_pasted_buffer_reachable|reflexivity|done|].
  intros [Hnull _]. by specialize (Hnull eq_refl).
Qed.

(** * Further properties of the six functions *)

(** ** Creation *)

(** X1.  [createCBuffer] returns the null pointer exactly when the size is
    0 or one of its two allocations fails; otherwise the structure has the
    size asked for, as many cells, all of them [NULL], both cursors on the
    first cell and no entry, and nothing can be read from it. *)
Theorem createCBuffer_result (size : Z) (buffer_ok area_ok : bool) :
  is_ulong size →
  (createCBuffer size buffer_ok area_ok = None ↔
   size = 0 ∨ buffer_ok = false ∨ area_ok = false) ∧
  (∀ b, createCBuffer size buffer_ok area_ok = Some b →
     cbSize b = size ∧
     _dataPtr b = replicate (Z.to_nat size) NULL ∧
     Z.of_nat (length (_dataPtr b)) = size ∧
     _readPtr b = 0 ∧ _writePtr b = 0 ∧ dataCount b = 0 ∧
     reachable size b ∧
     cbRead (Some b) = (NULL, Some b)).
Proof.
  intros Hsz. unfold createCBuffer, calloc. split.
  - destruct (Z.eqb_spec size 0), buffer_ok, area_ok; simpl;
      split; try done; try tauto; intros [?|[?|?]]; done.
  - intros b Hcr.
    destruct (Z.eqb_spec size 0), buffer_ok, area_ok; simplify_eq/=.
    split_and!; try done.
    + rewrite length_replicate. destruct Hsz. lia.
    + apply reach_create; [done|].
      unfold createCBuffer. by destruct (Z.eqb_spec size 0).
Qed.

Lemma createCBuffer_result_witness :
  (createCBuffer 4 true true = None ↔
   4 = 0 ∨ true = false ∨ true = false) ∧
  (∀ b, createCBuffer 4 true true = Some b →
     cbSize b = 4 ∧
     _dataPtr b = replicate (Z.to_nat 4) NULL ∧
     Z.of_nat (length (_dataPtr b)) = 4 ∧
     _readPtr b = 0 ∧ _writePtr b = 0 ∧ dataCount b = 0 ∧
     reachable 4 b ∧
     cbRead (Some b) = (NULL, Some b)).
Proof.
  apply (createCBuffer_result 4 true true).
  unfold is_ulong, ULONG_RANGE. lia.
Defined.

(** ** When the bulk calls are refused *)

Lemma copy_refused_iff b r upTo :
  wf b →
  copy_refused b r upTo = true ↔
  r = 0 ∨ dataCount b = 0 ∨ (upTo = 0 ∧ dataCount b < r).
Proof.
  intros []. unfold copy_refused.
  rewrite !orb_true_iff, !andb_true_iff, !Z.eqb_eq, Z.gtb_lt, Z.ltb_lt. lia.
Qed.

Lemma paste_refused_iff b r upTo :
  wf b →
  paste_refused b r upTo = true ↔
  r = 0 ∨ dataCount b = cbSize b ∨ (upTo = 0 ∧ cbSize b - dataCount b < r).
Proof.
  intros []. unfold paste_refused.
  rewrite (ulong_small (cbSize b - dataCount b)) by in_ulong.
  rewrite !orb_true_iff, !andb_true_iff, !Z.eqb_eq, Z.gtb_lt, Z.ltb_lt. lia.
Qed.

(** X2.  On a reachable buffer and a non-null block, [cbCopy] answers 0
    exactly when nothing is asked for, the buffer is empty, or (strict
    mode) fewer entries are there than asked for; the separate test of the
    request against the size never decides.  In strict mode the answer is
    otherwise the full amount asked for. *)
Theorem cbCopy_zero_iff
    (c : Z) (b : CircBuffer) (out : list ptr) (r upTo : Z) :
  reachable c b → is_ulong r →
  ((cbCopy (Some b) (Some out) r upTo).1.1 = 0 ↔
   r = 0 ∨ dataCount b = 0 ∨ (upTo = 0 ∧ dataCount b < r)) ∧
  (upTo = 0 →
   (cbCopy (Some b) (Some out) r upTo).1.1 = 0 ∨
   (cbCopy (Some b) (Some out) r upTo).1.1 = r).
Proof.
  intros Hb Hr. pose proof (reachable_wf _ _ Hb) as W.
  rewrite <-(copy_refused_iff b r upTo W), cbCopy_unfold.
  destruct (copy_refused b r upTo) eqn:Href; simpl.
  - split; [done|]. by left.
  - destruct (copy_accepted b r upTo W Hr Href) as [Hops _].
    split; [split; [lia|done]|].
    intros ->. right. by unfold bulk_ops.
Qed.

Lemma cbCopy_zero_iff_witness :
  ((cbCopy (Some sample_buffer) (Some [0; 0; 0]) 3 0).1.1 = 0 ↔
   3 = 0 ∨ dataCount sample_buffer = 0 ∨
   (0 = 0 ∧ dataCount sample_buffer < 3)) ∧
  (0 = 0 →
   (cbCopy (Some sample_buffer) (Some [0; 0; 0]) 3 0).1.1 = 0 ∨
   (cbCopy (Some sample_buffer) (Some [0; 0; 0]) 3 0).1.1 = 3).
Proof.
  apply (cbCopy_zero_iff 4 sample_buffer [0; 0; 0] 3 0).
  - exact sample_buffer_reachable.
  - unfold is_ulong, ULONG_RANGE. lia.
Defined.

(** X3.  On a reachable buffer and a non-null block, [cbPaste] answers 0
    exactly when nothing is asked for, the buffer is full, or (strict
    mode) fewer cells are free than asked for.  In strict mode the answer
    is otherwise the full amount asked for. *)
Theorem cbPaste_zero_iff
    (c : Z) (b : CircBuffer) (inp : list ptr) (r upTo : Z) :
  reachable c b → is_ulong r →
  ((cbPaste (Some b) (Some inp) r upTo).1 = 0 ↔
   r = 0 ∨ dataCount b = c ∨ (upTo = 0 ∧ c - dataCount b < r)) ∧
  (upTo = 0 →
   (cbPaste (Some b) (Some inp) r upTo).1 = 0 ∨
   (cbPaste (Some b) (Some inp) r upTo).1 = r).
Proof.
  intros Hb Hr. pose proof (reachable_wf _ _ Hb) as W.
  pose proof (reachable_size _ _ Hb) as <-.
  rewrite <-(paste_refused_iff b r upTo W), cbPaste_unfold.
  destruct (paste_refused b r upTo) eqn:Href; simpl.
  - split; [done|]. by left.
  - destruct (paste_accepted b r upTo W Hr Href) as [Hops _].
    split; [split; [lia|done]|].
    intros ->. right. by unfold bulk_ops.
Qed.

Lemma cbPaste_zero_iff_witness :
  ((cbPaste (Some sample_buffer) (Some [5; 6; 7]) 3 0).1 = 0 ↔
   3 = 0 ∨ dataCount sample_buffer = 4 ∨
   (0 = 0 ∧ 4 - dataCount sample_buffer < 3)) ∧
  (0 = 0 →
   (cbPaste (Some sample_buffer) (Some [5; 6; 7]) 3 0).1 = 0 ∨
   (cbPaste (Some sample_buffer) (Some [5; 6; 7]) 3 0).1 = 3).
Proof.
  apply (cbPaste_zero_iff 4 sample_buffer [5; 6; 7] 3 0).
  - exact sample_buffer_reachable.
  - unfold is_ulong, ULONG_RANGE. lia.
Defined.

(** X4.  The mode only matters for a request that cannot be served in
    full: when no more is asked for than the buffer holds, [cbCopy] does
    the same in both modes, and so does [cbPaste] when no more is asked
    for than there are free cells. *)
Theorem mode_irrelevant_when_served
    (c : Z) (b : CircBuffer) (dataBuf : option (list ptr)) (r upTo : Z) :
  reachable c b → 0 < r →
  (r ≤ dataCount b →
   cbCopy (Some b) dataBuf r upTo = cbCopy (Some b) dataBuf r 0) ∧
  (r ≤ c - dataCount b →
   cbPaste (Some b) dataBuf r upTo = cbPaste (Some b) dataBuf r 0).
Proof.
  intros Hb Hr. pose proof (reachable_wf _ _ Hb) as W.
  pose proof (reachable_size _ _ Hb) as <-.
  destruct dataBuf as [blk|]; [|done]. destruct W. split; intros Hle.
  - rewrite !cbCopy_unfold. unfold copy_refused, bulk_ops.
    destruct (Z.eqb_spec r 0); [lia|].
    destruct (Z.eqb_spec upTo 0); [by subst|]. simpl.
    destruct (Z.gtb_spec r (cbSize b)); [lia|].
    destruct (Z.eqb_spec (dataCount b) 0); [lia|].
    destruct (Z.ltb_spec (dataCount b) r); [lia|].
    by destruct (Z.geb_spec (dataCount b) r); [|lia].
  - rewrite !cbPaste_unfold. unfold paste_refused, bulk_ops.
    rewrite (ulong_small (cbSize b - dataCount b)) by in_ulong.
    destruct (Z.eqb_spec r 0); [lia|].
    destruct (Z.eqb_spec upTo 0); [by subst|]. simpl.
    destruct (Z.gtb_spec r (cbSize b)); [lia|].
    destruct (Z.eqb_spec (cbSize b - dataCount b) 0); [lia|].
    destruct (Z.ltb_spec (cbSize b - dataCount b) r); [lia|].
    by destruct (Z.geb_spec (cbSize b - dataCount b) r); [|lia].
Qed.

Lemma mode_irrelevant_when_served_witness :
  (2 ≤ dataCount sample_buffer →
   cbCopy (Some sample_buffer) (Some [0; 0]) 2 1
   = cbCopy (Some sample_buffer) (Some [0; 0]) 2 0) ∧
  (2 ≤ 4 - dataCount sample_buffer →
   cbPaste (Some sample_buffer) (Some [0; 0]) 2 1
   = cbPaste (Some sample_buffer) (Some [0; 0]) 2 0).
Proof.
  apply (mode_irrelevant_when_served 4 sample_buffer (Some [0; 0]) 2 1).
  - exact sample_buffer_reachable.
  - lia.
Defined.

(** ** What the bulk calls move *)

(** X5.  Whatever [cbCopy] answers on a reachable buffer, the [n] entries
    it moved are the [n] oldest live entries, in order, at the start of the
    block; the rest of the block and its length are untouched, the
    remaining live entries keep their order, and the cells of the moved
    entries now hold [NULL]. *)
Theorem cbCopy_moves_oldest
    (c : Z) (b : CircBuffer) (out : list ptr) (r upTo n : Z)
    (out' : list ptr) (b' : CircBuffer) :
  reachable c b → is_ulong r → r ≤ Z.of_nat (length out) →
  cbCopy (Some b) (Some out) r upTo = (n, Some out', Some b') →
  0 ≤ n ≤ dataCount b ∧ n ≤ r ∧
  out' = take (Z.to_nat n) (live b) ++ drop (Z.to_nat n) out ∧
  length out' = length out ∧
  live b = take (Z.to_nat n) out' ++ live b' ∧
  dataCount b' = dataCount b - n ∧
  vacant b' = vacant b ++ replicate (Z.to_nat n) NULL.
Proof.
  intros Hb Hr Hout Hcp. pose proof (reachable_wf _ _ Hb) as W.
  pose proof (length_live _ W) as Hlen.
  destruct (cbCopy_inv _ _ _ _ _ _ _ W Hr Hout Hcp)
    as [(_ & -> & [= <-] & ->)
       |(_ & _ & Hn & ? & [= ->] & _ & _ & _ & ? & _ & Hl & Hv)].
  - simpl. rewrite app_nil_r. destruct W, Hr. split_and!; try done; lia.
  - assert (length (take (Z.to_nat n) (live b)) = Z.to_nat n) as Hk
      by (rewrite length_take; lia).
    split_and!; try done; try lia.
    + rewrite length_app, length_drop, Hk. lia.
    + rewrite take_app_length' by done. by rewrite Hl, take_drop.
Qed.

Lemma cbCopy_moves_oldest_witness :
  0 ≤ 2 ≤ dataCount sample_buffer ∧ 2 ≤ 3 ∧
  [9; 1; 0] = take (Z.to_nat 2) (live sample_buffer)
              ++ drop (Z.to_nat 2) [0; 0; 0] ∧
  length [9; 1; 0] = length [0; 0; 0] ∧
  live sample_buffer
  = take (Z.to_nat 2) [9; 1; 0] ++ live (mkCircBuffer [0; 0; 0; 0] 4 0 0 0) ∧
  dataCount (mkCircBuffer [0; 0; 0; 0] 4 0 0 0)
  = dataCount sample_buffer - 2 ∧
  vacant (mkCircBuffer [0; 0; 0; 0] 4 0 0 0)
  = vacant sample_buffer ++ replicate (Z.to_nat 2) NULL.
Proof.
  apply (cbCopy_moves_oldest 4 sample_buffer [0; 0; 0] 3 1 2).
  - exact sample_buffer_reachable.
  - unfold is_ulong, ULONG_RANGE. lia.
  - simpl. lia.
  - reflexivity.
Defined.

(** X6.  Whatever [cbPaste] answers on a reachable buffer, the [n] entries
    it moved are the first [n] of the block, appended in order after the
    live entries, which are left as they were; the read cursor does not
    move and [n] vacant cells are used up. *)
Theorem cbPaste_appends
    (c : Z) (b : CircBuffer) (inp : list ptr) (r upTo n : Z)
    (b' : CircBuffer) :
  reachable c b → is_ulong r → r ≤ Z.of_nat (length inp) →
  cbPaste (Some b) (Some inp) r upTo = (n, Some b') →
  0 ≤ n ≤ c - dataCount b ∧ n ≤ r ∧
  live b' = live b ++ take (Z.to_nat n) inp ∧
  dataCount b' = dataCount b + n ∧
  _readPtr b' = _readPtr b ∧
  vacant b' = drop (Z.to_nat n) (vacant b).
Proof.
  intros Hb Hr Hinp Hps. pose proof (reachable_wf _ _ Hb) as W.
  pose proof (reachable_size _ _ Hb) as <-.
  destruct (cbPaste_inv _ _ _ _ _ _ W Hr Hinp Hps)
    as [(_ & -> & ->)|(_ & _ & Hn & ? & _ & _ & ? & ? & _ & Hl & Hv)].
  - simpl. rewrite app_nil_r. destruct W, Hr. split_and!; try done; lia.
  - split_and!; try done; lia.
Qed.

Lemma cbPaste_appends_witness :
  0 ≤ 2 ≤ 4 - dataCount sample_buffer ∧ 2 ≤ 3 ∧
  live (mkCircBuffer [5; 6; 9; 1] 4 2 2 4)
  = live sample_buffer ++ take (Z.to_nat 2) [5; 6; 7] ∧
  dataCount (mkCircBuffer [5; 6; 9; 1] 4 2 2 4)
  = dataCount sample_buffer + 2 ∧
  _readPtr (mkCircBuffer [5; 6; 9; 1] 4 2 2 4) = _readPtr sample_buffer ∧
  vacant (mkCircBuffer [5; 6; 9; 1] 4 2 2 4)
  = drop (Z.to_nat 2) (vacant sample_buffer).
Proof.
  apply (cbPaste_appends 4 sample_buffer [5; 6; 7] 3 1 2).
  - exact sample_buffer_reachable.
  - unfold is_ulong, ULONG_RANGE. lia.
  - simpl. lia.
  - reflexivity.
Defined.

(** ** Calls one after the other *)

(** A best-effort [cbCopy] asking for at least what the buffer holds takes
    everything out. *)
Lemma drain_all b out r upTo :
  wf b → is_ulong r → 0 < r → dataCount b ≤ r →
  r ≤ Z.of_nat (length out) → upTo ≠ 0 →
  ∃ b',
    cbCopy (Some b) (Some out) r upTo
    = (dataCount b,
       Some (live b ++ drop (Z.to_nat (dataCount b)) out), Some b') ∧
    wf b' ∧ cbSize b' = cbSize b ∧ dataCount b' = 0.
Proof.
  intros W Hr H0 Hle Hout Hup.
  pose proof (length_live _ W) as Hlen.
  destruct (cbCopy_best_effort b out r upTo W H0 Hup)
    as (out' & b' & Hcp & Hc).
  rewrite Z.min_r in Hcp, Hc by done.
  exists b'.
  destruct (cbCopy_inv _ _ _ _ _ _ _ W Hr Hout Hcp)
    as [(_ & Hz & [= <-] & ->)
       |(_ & _ & _ & _ & [= ->] & W' & ? & _)].
  - apply (live_nil _ W) in Hz as Hnil. rewrite Hcp, Hnil, Hz. simpl.
    by split_and!.
  - rewrite Hcp, take_ge by lia. split_and!; try done. lia.
Qed.

(** X7.  [cbPaste] then [cbCopy]: when [cbPaste] has moved [n] entries
    into a reachable buffer, a best-effort [cbCopy] asking for at least
    what the buffer now holds returns the entries that were live followed
    by the [n] pasted ones, in order, and leaves the buffer empty.  On an
    empty buffer the block comes back as it went in, null entries
    included. *)
Theorem paste_then_copy
    (c : Z) (b : CircBuffer) (inp out : list ptr) (r upTo n : Z)
    (b1 : CircBuffer) (r' upTo' : Z) :
  reachable c b → is_ulong r → r ≤ Z.of_nat (length inp) →
  cbPaste (Some b) (Some inp) r upTo = (n, Some b1) →
  is_ulong r' → 0 < r' → dataCount b + n ≤ r' →
  r' ≤ Z.of_nat (length out) → upTo' ≠ 0 →
  ∃ b2,
    cbCopy (Some b1) (Some out) r' upTo'
    = (dataCount b + n,
       Some ((live b ++ take (Z.to_nat n) inp)
             ++ drop (Z.to_nat (dataCount b + n)) out),
       Some b2) ∧
    dataCount b2 = 0.
Proof.
  intros Hb Hr Hinp Hps Hr' H0 Hle Hout Hup.
  pose proof (reachable_wf _ _ Hb) as W.
  assert (wf b1 ∧ dataCount b1 = dataCount b + n ∧
          live b1 = live b ++ take (Z.to_nat n) inp) as (W1 & Hc1 & Hl1).
  { destruct (cbPaste_inv _ _ _ _ _ _ W Hr Hinp Hps)
      as [(_ & -> & ->)|(_ & _ & _ & _ & ? & _ & _ & ? & _ & ? & _)].
    - simpl. rewrite app_nil_r. split_and!; try done. lia.
    - by split_and!. }
  destruct (drain_all b1 out r' upTo' W1) as (b2 & Hcp & _ & _ & Hc2);
    [done|done|lia|done|done|].
  exists b2. by rewrite Hcp, Hc1, Hl1.
Qed.

Lemma paste_then_copy_witness :
  ∃ b2,
    cbCopy (Some (mkCircBuffer [5; 6; 9; 1] 4 2 2 4))
           (Some [0; 0; 0; 0; 0]) 5 1
    = (dataCount sample_buffer + 2,
       Some ((live sample_buffer ++ take (Z.to_nat 2) [5; 6; 7])
             ++ drop (Z.to_nat (dataCount sample_buffer + 2)) [0; 0; 0; 0; 0]),
       Some b2) ∧
    dataCount b2 = 0.
Proof.
  apply (paste_then_copy 4 sample_buffer [5; 6; 7] [0; 0; 0; 0; 0] 3 1 2
           (mkCircBuffer [5; 6; 9; 1] 4 2 2 4) 5 1).
  - exact sample_buffer_reachable.
  - unfold is_ulong, ULONG_RANGE. lia.
  - simpl. lia.
  - reflexivity.
  - unfold is_ulong, ULONG_RANGE. lia.
  - lia.
  - simpl. lia.
  - simpl. lia.
  - lia.
Defined.

(** X8.  [cbWrite] calls then [cbCopy]: after writing the non-null
    elements [es] one by one into the free cells of a reachable buffer, a
    best-effort [cbCopy] asking for at least what the buffer holds returns
    the entries that were live followed by [es], in order, and leaves the
    buffer empty. *)
Theorem write_then_copy
    (c : Z) (b : CircBuffer) (es out : list ptr) (r upTo : Z) :
  reachable c b →
  Forall (λ p, p ≠ NULL) es → Z.of_nat (length es) ≤ c - dataCount b →
  is_ulong r → 0 < r → dataCount b + Z.of_nat (length es) ≤ r →
  r ≤ Z.of_nat (length out) → upTo ≠ 0 →
  ∃ b1 b2,
    cbWrite_all es (Some b) = (replicate (length es) 1, Some b1) ∧
    cbCopy (Some b1) (Some out) r upTo
    = (dataCount b + Z.of_nat (length es),
       Some ((live b ++ es)
             ++ drop (Z.to_nat (dataCount b + Z.of_nat (length es))) out),
       Some b2) ∧
    dataCount b2 = 0.
Proof.
  intros Hb Hes Hlen Hr H0 Hle Hout Hup.
  pose proof (reachable_wf _ _ Hb) as W.
  pose proof (reachable_size _ _ Hb) as HS. rewrite <-HS in Hlen.
  destruct (cbWrite_all_spec es b W Hes Hlen)
    as (b1 & Hwa & W1 & _ & _ & Hc1 & Hcells1).
  destruct (filled_live b b1 es W Hlen Hc1 Hcells1) as [Hl1 _].
  destruct (drain_all b1 out r upTo W1) as (b2 & Hcp & _ & _ & Hc2);
    [done|done|lia|done|done|].
  exists b1, b2. by rewrite Hcp, Hc1, Hl1.
Qed.

Lemma write_then_copy_witness :
  ∃ b1 b2,
    cbWrite_all [5; 6] (Some sample_buffer)
    = (replicate (length [5; 6]) 1, Some b1) ∧
    cbCopy (Some b1) (Some [0; 0; 0; 0; 0]) 5 1
    = (dataCount sample_buffer + Z.of_nat (length [5; 6]),
       Some ((live sample_buffer ++ [5; 6])
             ++ drop (Z.to_nat (dataCount sample_buffer
                                + Z.of_nat (length [5; 6])))
                  [0; 0; 0; 0; 0]),
       Some b2) ∧
    dataCount b2 = 0.
Proof.
  apply (write_then_copy 4 sample_buffer [5; 6] [0; 0; 0; 0; 0] 5 1).
  - exact sample_buffer_reachable.
  - by repeat constructor.
  - simpl. lia.
  - unfold is_ulong, ULONG_RANGE. lia.
  - lia.
  - simpl. lia.
  - simpl. lia.
  - lia.
Defined.

(** X9.  [cbPaste] then [cbRead] calls: when [cbPaste] has moved [n]
    entries into a reachable buffer, reading as many times as the buffer
    now holds entries returns the entries that were live followed by the
    [n] pasted ones, in order. *)
Theorem paste_then_read
    (c : Z) (b : CircBuffer) (inp : list ptr) (r upTo n : Z)
    (b1 : CircBuffer) :
  reachable c b → is_ulong r → r ≤ Z.of_nat (length inp) →
  cbPaste (Some b) (Some inp) r upTo = (n, Some b1) →
  ∃ b2,
    cbRead_n (Z.to_nat (dataCount b + n)) (Some b1)
    = (live b ++ take (Z.to_nat n) inp, Some b2) ∧
    dataCount b2 = 0.
Proof.
  intros Hb Hr Hinp Hps. pose proof (reachable_wf _ _ Hb) as W.
  assert (wf b1 ∧ dataCount b1 = dataCount b + n ∧
          live b1 = live b ++ take (Z.to_nat n) inp) as (W1 & Hc1 & Hl1).
  { destruct (cbPaste_inv _ _ _ _ _ _ W Hr Hinp Hps)
      as [(_ & -> & ->)|(_ & _ & _ & _ & ? & _ & _ & ? & _ & ? & _)].
    - simpl. rewrite app_nil_r. split_and!; try done. lia.
    - by split_and!. }
  destruct (cbRead_n_spec (Z.to_nat (dataCount b + n)) b1 W1)
    as (b2 & Hrn & _ & _ & _ & Hc2 & _); [destruct W1; lia|].
  exists b2. rewrite Hrn, <-Hl1, <-Hc1. split; [done|].
  destruct W1. lia.
Qed.

Lemma paste_then_read_witness :
  ∃ b2,
    cbRead_n (Z.to_nat (dataCount sample_buffer + 2))
             (Some (mkCircBuffer [5; 6; 9; 1] 4 2 2 4))
    = (live sample_buffer ++ take (Z.to_nat 2) [5; 6; 7], Some b2) ∧
    dataCount b2 = 0.
Proof.
  apply (paste_then_read 4 sample_buffer [5; 6; 7] 3 1 2
           (mkCircBuffer [5; 6; 9; 1] 4 2 2 4)).
  - exact sample_buffer_reachable.
  - unfold is_ulong, ULONG_RANGE. lia.
  - simpl. lia.
  - reflexivity.
Defined.

(** ** What the cells hold, whatever was pasted *)

Lemma Forall_ring {A} (P : A → Prop) r (l : list A) :
  Forall P (ring r l) → Forall P l.
Proof.
  unfold ring. rewrite Forall_app. intros [Hd Ht].
  rewrite <-(take_drop r l). by apply Forall_app.
Qed.

(** An empty well-formed structure whose vacant cells are [NULL] holds
    [NULL] everywhere. *)
Lemma empty_all_null b :
  wf b → vacant_null b → dataCount b = 0 →
  _dataPtr b = replicate (length (_dataPtr b)) NULL.
Proof.
  intros W Hv H0. unfold vacant_null, vacant in Hv.
  rewrite H0 in Hv. simpl in Hv. rewrite drop_0 in Hv.
  apply Forall_ring in Hv. symmetry. apply replicate_as_Forall.
  split; [done|]. eapply Forall_impl; [exact Hv|]. by intros p ->.
Qed.

(** X10.  In every reachable structure, null entries pasted or not, the
    live cells are [dataCount] in number, every other cell holds [NULL],
    and so no more than [dataCount] cells of the data area are non-null:
    what has been read out is never left behind in the data area. *)
Theorem vacated_cells_null (c : Z) (b : CircBuffer) :
  reachable c b →
  Z.of_nat (length (live b)) = dataCount b ∧
  Z.of_nat (length (vacant b)) = c - dataCount b ∧
  Forall (λ p, p = NULL) (vacant b) ∧
  occupied b ≤ dataCount b ∧
  (∀ p, p ≠ NULL → p ∈ _dataPtr b → p ∈ live b).
Proof.
  intros Hb. pose proof (reachable_wf _ _ Hb) as W.
  pose proof (reachable_size _ _ Hb) as <-.
  pose proof (reachable_vacant_null _ _ Hb) as Hv.
  pose proof (length_live _ W) as Hlen.
  assert (filter (λ p, p ≠ NULL) (_dataPtr b)
          ≡ₚ filter (λ p, p ≠ NULL) (live b)) as Hperm.
  { rewrite <-(filter_ring _ (Z.to_nat (_readPtr b))).
    fold (cells b). rewrite (live_vacant b), filter_app.
    by rewrite (filter_all_null (vacant b)), app_nil_r. }
  split_and!; try done.
  - destruct W. lia.
  - unfold vacant. rewrite length_drop, length_cells. destruct W. lia.
  - unfold occupied. rewrite Hperm.
    pose proof (length_filter (λ p, p ≠ NULL) (live b)). destruct W. lia.
  - intros p Hp Hin.
    assert (p ∈ filter (λ p, p ≠ NULL) (_dataPtr b)) as Hf
      by (by apply list_elem_of_filter).
    rewrite Hperm in Hf. by apply list_elem_of_filter in Hf as [_ ?].
Qed.

Lemma vacated_cells_null_witness :
  Z.of_nat (length (live null_pasted_buffer)) = dataCount null_pasted_buffer ∧
  Z.of_nat (length (vacant null_pasted_buffer))
  = 2 - dataCount null_pasted_buffer ∧
  Forall (λ p, p = NULL) (vacant null_pasted_buffer) ∧
  occupied null_pasted_buffer ≤ dataCount null_pasted_buffer ∧
  (∀ p, p ≠ NULL → p ∈ _dataPtr null_pasted_buffer →
        p ∈ live null_pasted_buffer).
Proof.
  apply (vacated_cells_null 2 null_pasted_buffer).
  exact null_pasted_buffer_reachable.
Defined.

(** X11.  A reachable buffer that holds no entry has [NULL] in every cell
    and its two cursors on the same cell; [cbRead] and [cbCopy] take
    nothing from it, and [deleteCBuffer] frees the data area and the
    structure only, whatever [toFree] says: the entries that were read out
    are never freed by the buffer. *)
Theorem empty_buffer (c : Z) (b : CircBuffer) :
  reachable c b → dataCount b = 0 →
  _dataPtr b = replicate (Z.to_nat c) NULL ∧
  _readPtr b = _writePtr b ∧
  cbRead (Some b) = (NULL, Some b) ∧
  (∀ dataBuf r upTo, cbCopy (Some b) dataBuf r upTo = (0, dataBuf, Some b)) ∧
  (∀ toFree, deleteCBuffer (Some b) toFree = [DataArea; Structure]).
Proof.
  intros Hb H0. pose proof (reachable_wf _ _ Hb) as W.
  pose proof (reachable_size _ _ Hb) as <-.
  pose proof (reachable_vacant_null _ _ Hb) as Hv.
  pose proof (empty_all_null _ W Hv H0) as Hnull.
  pose proof (wf_cursors_cases _ W) as Hcur.
  split_and!.
  - rewrite Hnull at 1. f_equal. destruct W. lia.
  - destruct W. lia.
  - unfold cbRead. by rewrite H0.
  - intros [out|] r upTo; [|done]. rewrite cbCopy_unfold.
    unfold copy_refused. rewrite H0. simpl. by rewrite orb_true_r.
  - intros toFree. destruct (decide (toFree = 0)) as [->|Hfree]; [done|].
    rewrite deleteCBuffer_entries by done. rewrite Hnull.
    by rewrite filter_all_null by (by apply Forall_replicate).
Qed.

Lemma empty_buffer_witness :
  _dataPtr (mkCircBuffer [0; 0; 0; 0] 4 0 0 0) = replicate (Z.to_nat 4) NULL ∧
  _readPtr (mkCircBuffer [0; 0; 0; 0] 4 0 0 0)
  = _writePtr (mkCircBuffer [0; 0; 0; 0] 4 0 0 0) ∧
  cbRead (Some (mkCircBuffer [0; 0; 0; 0] 4 0 0 0))
  = (NULL, Some (mkCircBuffer [0; 0; 0; 0] 4 0 0 0)) ∧
  (∀ dataBuf r upTo,
     cbCopy (Some (mkCircBuffer [0; 0; 0; 0] 4 0 0 0)) dataBuf r upTo
     = (0, dataBuf, Some (mkCircBuffer [0; 0; 0; 0] 4 0 0 0))) ∧
  (∀ toFree,
     deleteCBuffer (Some (mkCircBuffer [0; 0; 0; 0] 4 0 0 0)) toFree
     = [DataArea; Structure]).
Proof.
  apply (empty_buffer 4 (mkCircBuffer [0; 0; 0; 0] 4 0 0 0)).
  - apply (reach_copy _ _ sample_buffer (Some [0; 0; 0]) 3 1 2
             (Some [9; 1; 0])); [| | |reflexivity].
    + exact sample_buffer_reachable.
    + unfold is_ulong, ULONG_RANGE. lia.
    + simpl. lia.
  - reflexivity.
Defined.

(** ** Full buffers and refused calls *)

(** X12.  Writing one non-null element per free cell of a reachable buffer
    succeeds every time and fills the buffer; from then on [cbWrite]
    answers 0 for every element and [cbPaste] answers 0 for every request,
    in both modes, and both leave the buffer as it is: nothing is ever
    overwritten. *)
Theorem fill_to_capacity (c : Z) (b : CircBuffer) (es : list ptr) :
  reachable c b →
  Forall (λ p, p ≠ NULL) es → Z.of_nat (length es) = c - dataCount b →
  ∃ b1,
    cbWrite_all es (Some b) = (replicate (length es) 1, Some b1) ∧
    dataCount b1 = c ∧ live b1 = live b ++ es ∧
    (∀ e, cbWrite (Some b1) e = (0, Some b1)) ∧
    (∀ dataBuf r upTo, cbPaste (Some b1) dataBuf r upTo = (0, Some b1)).
Proof.
  intros Hb Hes Hlen. pose proof (reachable_wf _ _ Hb) as W.
  pose proof (reachable_size _ _ Hb) as HS. rewrite <-HS in Hlen.
  destruct (cbWrite_all_spec es b W Hes) as (b1 & Hwa & W1 & HS1 & _ & Hc1 & Hcells1);
    [lia|].
  destruct (filled_live b b1 es W) as [Hl1 _]; [lia|done..|].
  assert (dataCount b1 = cbSize b1) as Hfull by lia.
  exists b1. split_and!; try done; try lia.
  - intros e. unfold cbWrite. destruct (e =? NULL); [done|].
    by rewrite Hfull, Z.eqb_refl.
  - intros [inp|] r upTo; [|done]. rewrite cbPaste_unfold.
    unfold paste_refused. rewrite Hfull, Z.sub_diag.
    change (ulong 0 =? 0) with true. simpl. by rewrite orb_true_r.
Qed.

Lemma fill_to_capacity_witness :
  ∃ b1,
    cbWrite_all [5; 6] (Some sample_buffer)
    = (replicate (length [5; 6]) 1, Some b1) ∧
    dataCount b1 = 4 ∧ live b1 = live sample_buffer ++ [5; 6] ∧
    (∀ e, cbWrite (Some b1) e = (0, Some b1)) ∧
    (∀ dataBuf r upTo, cbPaste (Some b1) dataBuf r upTo = (0, Some b1)).
Proof.
  apply (fill_to_capacity 4 sample_buffer [5; 6]).
  - exact sample_buffer_reachable.
  - by repeat constructor.
  - reflexivity.
Defined.

(** X13.  An answer of 0 from [cbWrite], [cbCopy] or [cbPaste] means that
    nothing was touched: the buffer, null or not, well-formed or not, and
    the block are what they were before the call. *)
Theorem zero_answer_changes_nothing
    (cBuff : option CircBuffer) (dataBuf : option (list ptr))
    (e bufSize upTo : Z) :
  ((cbWrite cBuff e).1 = 0 → (cbWrite cBuff e).2 = cBuff) ∧
  ((cbCopy cBuff dataBuf bufSize upTo).1.1 = 0 →
   (cbCopy cBuff dataBuf bufSize upTo).1.2 = dataBuf ∧
   (cbCopy cBuff dataBuf bufSize upTo).2 = cBuff) ∧
  ((cbPaste cBuff dataBuf bufSize upTo).1 = 0 →
   (cbPaste cBuff dataBuf bufSize upTo).2 = cBuff).
Proof.
  split_and!.
  - destruct (cbWrite cBuff e) as [f cBuff'] eqn:Hwr. simpl. intros ->.
    by apply cbWrite_failure_atomic in Hwr.
  - destruct (cbCopy cBuff dataBuf bufSize upTo) as [[n dataBuf'] cBuff']
      eqn:Hcp. simpl. intros ->.
    by apply cbCopy_failure_atomic in Hcp.
  - destruct (cbPaste cBuff dataBuf bufSize upTo) as [n cBuff'] eqn:Hps.
    simpl. intros ->. by apply cbPaste_failure_atomic in Hps.
Qed.

(** X14.  On every reachable buffer, null entries pasted or not: [cbWrite]
    answers 0 exactly for a null element or a full buffer, and otherwise
    answers 1 and appends the element after the live entries; [cbRead] on
    an empty buffer answers [NULL] and changes nothing, and otherwise
    returns the oldest live entry, removes it and leaves the others in
    order. *)
Theorem single_calls (c : Z) (b : CircBuffer) :
  reachable c b →
  (∀ e, (cbWrite (Some b) e).1 = 0 ↔ e = NULL ∨ dataCount b = c) ∧
  (∀ e, e ≠ NULL → dataCount b ≠ c →
     ∃ b', cbWrite (Some b) e = (1, Some b') ∧
           live b' = live b ++ [e] ∧ dataCount b' = dataCount b + 1) ∧
  (dataCount b = 0 → cbRead (Some b) = (NULL, Some b)) ∧
  (dataCount b ≠ 0 →
     ∃ p b', cbRead (Some b) = (p, Some b') ∧
             live b = p :: live b' ∧ dataCount b' = dataCount b - 1 ∧
             load (_dataPtr b') (_readPtr b) = NULL).
Proof.
  intros Hb. pose proof (reachable_wf _ _ Hb) as W.
  pose proof (reachable_size _ _ Hb) as <-.
  split_and!.
  - intros e. destruct (cbWrite_Some b e) as [b' Hb'].
    destruct (cbWrite (Some b) e) as [f ob] eqn:Hwr. simpl in *. subst ob.
    destruct (cbWrite_inv _ _ _ _ W Hwr)
      as [(-> & _ & Hrej)|(-> & He & Hc & _)]; [done|].
    split; [done|]. by intros [?|?].
  - intros e He Hc.
    destruct (cbWrite_spec b e W He Hc) as (b' & Hwr & _ & _ & _ & ? & _).
    exists b'. split_and!; [done| |done].
    by destruct (cbWrite_inv _ _ _ _ W Hwr)
      as [(? & _)|(_ & _ & _ & _ & _ & _ & _ & _ & ? & _)].
  - intros H0. unfold cbRead. by rewrite H0.
  - intros Hc. destruct (cbRead_Some b) as [b' Hb'].
    destruct (cbRead (Some b)) as [p ob] eqn:Hrd. simpl in *. subst ob.
    exists p, b'.
    destruct (cbRead_inv _ _ _ W Hrd)
      as [(? & _)|(_ & _ & _ & _ & ? & _ & ? & _)]; [done|].
    split_and!; try done.
    unfold cbRead in Hrd. destruct (Z.eqb_spec (dataCount b) 0); [done|].
    simplify_eq/=. unfold load, store.
    rewrite list_lookup_insert_eq; [done|]. destruct W. lia.
Qed.

Lemma single_calls_witness :
  (∀ e, (cbWrite (Some null_pasted_buffer) e).1 = 0 ↔
        e = NULL ∨ dataCount null_pasted_buffer = 2) ∧
  (∀ e, e ≠ NULL → dataCount null_pasted_buffer ≠ 2 →
     ∃ b', cbWrite (Some null_pasted_buffer) e = (1, Some b') ∧
           live b' = live null_pasted_buffer ++ [e] ∧
           dataCount b' = dataCount null_pasted_buffer + 1) ∧
  (dataCount null_pasted_buffer = 0 →
   cbRead (Some null_pasted_buffer) = (NULL, Some null_pasted_buffer)) ∧
  (dataCount null_pasted_buffer ≠ 0 →
     ∃ p b', cbRead (Some null_pasted_buffer) = (p, Some b') ∧
             live null_pasted_buffer = p :: live b' ∧
             dataCount b' = dataCount null_pasted_buffer - 1 ∧
             load (_dataPtr b') (_readPtr null_pasted_buffer) = NULL).
Proof.
  apply (single_calls 2 null_pasted_buffer).
  exact null_pasted_buffer_reachable.
Defined.

(** X15.  No call resizes a reachable buffer or moves the cursor of the
    other side: after [cbRead] and [cbCopy] the size, the number of cells
    and the write cursor are what they were, after [cbWrite] and [cbPaste]
    the size, the number of cells and the read cursor are. *)
Theorem other_side_untouched (c : Z) (b : CircBuffer) :
  reachable c b →
  (∀ p b', cbRead (Some b) = (p, Some b') →
     cbSize b' = c ∧ length (_dataPtr b') = length (_dataPtr b) ∧
     _writePtr b' = _writePtr b) ∧
  (∀ dataBuf r upTo n dataBuf' b',
     is_ulong r → block_ok dataBuf r →
     cbCopy (Some b) dataBuf r upTo = (n, dataBuf', Some b') →
     cbSize b' = c ∧ length (_dataPtr b') = length (_dataPtr b) ∧
     _writePtr b' = _writePtr b) ∧
  (∀ e f b', cbWrite (Some b) e = (f, Some b') →
     cbSize b' = c ∧ length (_dataPtr b') = length (_dataPtr b) ∧
     _readPtr b' = _readPtr b) ∧
  (∀ dataBuf r upTo n b',
     is_ulong r → block_ok dataBuf r →
     cbPaste (Some b) dataBuf r upTo = (n, Some b') →
     cbSize b' = c ∧ length (_dataPtr b') = length (_dataPtr b) ∧
     _readPtr b' = _readPtr b).
Proof.
  intros Hb. pose proof (reachable_wf _ _ Hb) as W.
  pose proof (reachable_size _ _ Hb) as HS.
  assert (∀ b', wf b' → cbSize b' = cbSize b →
                length (_dataPtr b') = length (_dataPtr b)) as Hlen.
  { intros b' W' HS'. destruct W, W'. lia. }
  split_and!.
  - intros p b' Hrd.
    destruct (cbRead_inv _ _ _ W Hrd)
      as [(_ & _ & ->)|(_ & W' & HS' & ? & _)]; [done|].
    split_and!; [congruence|by apply Hlen|done].
  - intros [out|] r upTo n dataBuf' b' Hr Hblk Hcp;
      [|unfold cbCopy in Hcp; by simplify_eq].
    destruct (cbCopy_inv _ _ _ _ _ _ _ W Hr Hblk Hcp)
      as [(_ & _ & _ & ->)|(_ & _ & _ & _ & _ & W' & HS' & ? & _)]; [done|].
    split_and!; [congruence|by apply Hlen|done].
  - intros e f b' Hwr.
    destruct (cbWrite_inv _ _ _ _ W Hwr)
      as [(_ & -> & _)|(_ & _ & _ & W' & HS' & ? & _)]; [done|].
    split_and!; [congruence|by apply Hlen|done].
  - intros [inp|] r upTo n b' Hr Hblk Hps;
      [|unfold cbPaste in Hps; by simplify_eq].
    destruct (cbPaste_inv _ _ _ _ _ _ W Hr Hblk Hps)
      as [(_ & _ & ->)|(_ & _ & _ & _ & W' & HS' & ? & _)]; [done|].
    split_and!; [congruence|by apply Hlen|done].
Qed.

Lemma other_side_untouched_witness :
  (∀ p b', cbRead (Some sample_buffer) = (p, Some b') →
     cbSize b' = 4 ∧ length (_dataPtr b') = length (_dataPtr sample_buffer) ∧
     _writePtr b' = _writePtr sample_buffer) ∧
  (∀ dataBuf r upTo n dataBuf' b',
     is_ulong r → block_ok dataBuf r →
     cbCopy (Some sample_buffer) dataBuf r upTo = (n, dataBuf', Some b') →
     cbSize b' = 4 ∧ length (_dataPtr b') = length (_dataPtr sample_buffer) ∧
     _writePtr b' = _writePtr sample_buffer) ∧
  (∀ e f b', cbWrite (Some sample_buffer) e = (f, Some b') →
     cbSize b' = 4 ∧ length (_dataPtr b') = length (_dataPtr sample_buffer) ∧
     _readPtr b' = _readPtr sample_buffer) ∧
  (∀ dataBuf r upTo n b',
     is_ulong r → block_ok dataBuf r →
     cbPaste (Some sample_buffer) dataBuf r upTo = (n, Some b') →
     cbSize b' = 4 ∧ length (_dataPtr b') = length (_dataPtr sample_buffer) ∧
     _readPtr b' = _readPtr sample_buffer).
Proof.
  apply (other_side_untouched 4 sample_buffer).
  exact sample_buffer_reachable.
Defined.

Lemma zero_answer_changes_nothing_witness :
  (cbWrite (Some sample_buffer) NULL).2 = Some sample_buffer ∧
  ((cbCopy (Some sample_buffer) (Some [0; 0; 0]) 3 0).1.2 = Some [0; 0; 0] ∧
   (cbCopy (Some sample_buffer) (Some [0; 0; 0]) 3 0).2
   = Some sample_buffer) ∧
  (cbPaste (Some sample_buffer) (Some [5; 6; 7]) 3 0).2 = Some sample_buffer.
Proof.
  destruct (zero_answer_changes_nothing
              (Some sample_buffer) (Some [0; 0; 0]) NULL 3 0)
    as (Hwr & Hcp & _).
  destruct (zero_answer_changes_nothing
              (Some sample_buffer) (Some [5; 6; 7]) NULL 3 0)
    as (_ & _ & Hps).
  split; [apply Hwr; reflexivity|].
  split; [apply Hcp; reflexivity|apply Hps; reflexivity].
Defined.

(** X16.  Null and empty arguments: on a null buffer every function gives
    up at once ([cbRead] answers [NULL], the others 0, [deleteCBuffer]
    frees nothing); [cbCopy] and [cbPaste] also answer 0, in both modes and
    without touching the buffer or the block, for a null block and for a
    request of 0 entries. *)
Theorem null_arguments
    (cBuff : option CircBuffer) (dataBuf : option (list ptr))
    (e bufSize upTo toFree : Z) :
  cbRead None = (NULL, None) ∧
  cbWrite None e = (0, None) ∧
  cbCopy None dataBuf bufSize upTo = (0, dataBuf, None) ∧
  cbPaste None dataBuf bufSize upTo = (0, None) ∧
  deleteCBuffer None toFree = [] ∧
  cbCopy cBuff None bufSize upTo = (0, None, cBuff) ∧
  cbPaste cBuff None bufSize upTo = (0, cBuff) ∧
  cbCopy cBuff dataBuf 0 upTo = (0, dataBuf, cBuff) ∧
  cbPaste cBuff dataBuf 0 upTo = (0, cBuff).
Proof.
  unfold cbRead, cbWrite, cbCopy, cbPaste, deleteCBuffer.
  destruct dataBuf, cBuff; split_and!; reflexivity.
Qed.

(** ** The cursors after a bulk call *)

Lemma mod_intro c x y j :
  0 ≤ x < c → y = x + j * c → y `mod` c = x.
Proof. intros ? ->. rewrite Z.mod_add, Z.mod_small; lia. Qed.

(** X17.  A bulk call moves its cursor by the number of entries it moved,
    modulo the size, whether the transfer was split at the end of the data
    area or not: the read cursor for [cbCopy], the write cursor for
    [cbPaste]. *)
Theorem bulk_cursor_advance
    (c : Z) (b : CircBuffer) (blk : list ptr) (r upTo n : Z) :
  reachable c b → is_ulong r → r ≤ Z.of_nat (length blk) →
  (∀ out' b',
     cbCopy (Some b) (Some blk) r upTo = (n, Some out', Some b') →
     _readPtr b' = (_readPtr b + n) `mod` c) ∧
  (∀ b',
     cbPaste (Some b) (Some blk) r upTo = (n, Some b') →
     _writePtr b' = (_writePtr b + n) `mod` c).
Proof.
  intros Hb Hr Hblk. pose proof (reachable_wf _ _ Hb) as W.
  pose proof (reachable_size _ _ Hb) as <-.
  pose proof (wf_cursors_cases _ W) as Hcur. split.
  - intros out' b' Hcp.
    destruct (cbCopy_inv _ _ _ _ _ _ _ W Hr Hblk Hcp)
      as [(_ & -> & _ & ->)|(_ & _ & Hn & _ & _ & W' & HS' & Hw' & Hc' & _)].
    + rewrite Z.add_0_r, Z.mod_small; [done|]. by destruct W.
    + pose proof (wf_cursors_cases _ W') as Hcur'.
      symmetry. destruct W, W'.
      destruct Hcur as [[? ?]|[? ?]], Hcur' as [[? ?]|[? ?]].
      * apply (mod_intro _ _ _ 0); lia.
      * apply (mod_intro _ _ _ (-1)); lia.
      * apply (mod_intro _ _ _ 1); lia.
      * apply (mod_intro _ _ _ 0); lia.
  - intros b' Hps.
    destruct (cbPaste_inv _ _ _ _ _ _ W Hr Hblk Hps)
      as [(_ & -> & ->)|(_ & _ & Hn & _ & W' & HS' & Hr' & Hc' & _)].
    + rewrite Z.add_0_r, Z.mod_small; [done|]. by destruct W.
    + pose proof (wf_cursors_cases _ W') as Hcur'.
      symmetry. destruct W, W'.
      destruct Hcur as [[? ?]|[? ?]], Hcur' as [[? ?]|[? ?]].
      * apply (mod_intro _ _ _ 0); lia.
      * apply (mod_intro _ _ _ 1); lia.
      * apply (mod_intro _ _ _ (-1)); lia.
      * apply (mod_intro _ _ _ 0); lia.
Qed.

Lemma bulk_cursor_advance_witness :
  (∀ out' b',
     cbCopy (Some sample_buffer) (Some [5; 6; 7]) 3 1
     = (2, Some out', Some b') →
     _readPtr b' = (_readPtr sample_buffer + 2) `mod` 4) ∧
  (∀ b',
     cbPaste (Some sample_buffer) (Some [5; 6; 7]) 3 1 = (2, Some b') →
     _writePtr b' = (_writePtr sample_buffer + 2) `mod` 4).
Proof.
  apply (bulk_cursor_advance 4 sample_buffer [5; 6; 7] 3 1 2).
  - exact sample_buffer_reachable.
  - unfold is_ulong, ULONG_RANGE. lia.
  - simpl. lia.
Defined.

(** ** The order of the [free] calls *)

(** X18.  With [toFree] set, [deleteCBuffer] on a reachable buffer calls
    [free] on the non-null cells in the order of the data area, which is
    not the order of arrival once the entries wrap around, then on the
    data area and last on the structure; no more entries are freed than
    the buffer counts. *)
Theorem delete_in_storage_order (c : Z) (b : CircBuffer) (toFree : Z) :
  reachable c b → toFree ≠ 0 →
  deleteCBuffer (Some b) toFree
  = (Entry <$> filter (λ p, p ≠ NULL) (_dataPtr b))
    ++ [DataArea; Structure] ∧
  Z.of_nat (length (deleteCBuffer (Some b) toFree)) = occupied b + 2 ∧
  occupied b ≤ dataCount b.
Proof.
  intros Hb Hfree. pose proof (reachable_wf _ _ Hb) as W.
  pose proof (reachable_vacant_null _ _ Hb) as Hv.
  rewrite deleteCBuffer_entries by done. split_and!; [done| |].
  - rewrite length_app, length_fmap. unfold occupied. simpl. lia.
  - unfold occupied.
    rewrite <-(filter_ring _ (Z.to_nat (_readPtr b))). fold (cells b).
    rewrite (live_vacant b), filter_app, (filter_all_null (vacant b)) by done.
    rewrite app_nil_r.
    pose proof (length_filter (λ p, p ≠ NULL) (live b)).
    pose proof (length_live _ W). destruct W. lia.
Qed.

Lemma delete_in_storage_order_witness :
  deleteCBuffer (Some (mkCircBuffer [5; 6; 9; 1] 4 2 2 4)) 1
  = (Entry <$> filter (λ p, p ≠ NULL)
                 (_dataPtr (mkCircBuffer [5; 6; 9; 1] 4 2 2 4)))
    ++ [DataArea; Structure] ∧
  Z.of_nat (length (deleteCBuffer (Some (mkCircBuffer [5; 6; 9; 1] 4 2 2 4)) 1))
  = occupied (mkCircBuffer [5; 6; 9; 1] 4 2 2 4) + 2 ∧
  occupied (mkCircBuffer [5; 6; 9; 1] 4 2 2 4)
  ≤ dataCount (mkCircBuffer [5; 6; 9; 1] 4 2 2 4).
Proof.
  apply (delete_in_storage_order 4 (mkCircBuffer [5; 6; 9; 1] 4 2 2 4) 1).
  - apply (reach_paste _ _ sample_buffer (Some [5; 6; 7]) 3 1 2);
      [| | | |reflexivity].
    + exact sample_buffer_reachable.
    + unfold is_ulong, ULONG_RANGE. lia.
    + simpl. lia.
    + simpl. by repeat constructor.
  - lia.
Defined.
